(** * Bucketed batch sampling of [src/models/data_loader.py]

    A shallow embedding of [identity], [SortedSampler] and
    [BucketBatchSampler], together with the parts of
    [torch.utils.data.sampler] they are built from ([SequentialSampler],
    [RandomSampler], [BatchSampler], [SubsetRandomSampler]); of
    [NLIDataset] and [collate_nli]; and of the loader configuration of
    [src/models/train_cnn.py].

    Modelling choices:
    - a dataset is its [__len__] and its [__getitem__];
    - the Python numbers passed as [batch_size] and
      [bucket_size_multiplier] are [pyval]s (bool, int or float); floats
      are IEEE 754 doubles, with the rounding of CPython's arithmetic;
    - the process-wide random state of torch is a state [S] threaded through
      the iteration, and [torch.randperm] is a function
      [randperm : S -> nat -> list nat * S];
    - an iteration returns the batches of dataset indices that are handed to
      [collate_fn], in emission order. *)

From Stdlib Require Import List Arith Lia ZArith QArith Permutation Sorted.
From Stdlib Require Ascii String.
Import ListNotations.
Import (notations) String.
Open Scope nat_scope.

(** ** Python values *)

(** A Python float: a finite double [m * 2^e], [inf] or [-inf], or [nan].
    The doubles produced by the arithmetic below have [|m| < 2^53] and
    [e >= -1074]; other pairs denote the same value [m * 2^e]. *)
Inductive pyfloat : Type :=
| FFinite (m e : Z)
| FInf (neg : bool)
| FNaN.

Inductive pyval : Type :=
| PyBool (b : bool)
| PyInt (z : Z)
| PyFloat (f : pyfloat).

Inductive exn : Type := ValueError | OverflowError.

Inductive result (T : Type) : Type :=
| Ok (v : T)
| Error (e : exn).
Arguments Ok {T} v.
Arguments Error {T} e.

(** The value [m * 2^e]. *)
Definition fval (m e : Z) : Q :=
  if (0 <=? e)%Z then inject_Z (m * 2 ^ e) else m # Z.to_pos (2 ^ (- e)).

(** [a / b] rounded to the nearest integer, ties to even ([a >= 0],
    [b > 0]). *)
Definition rne_div (a b : Z) : Z :=
  let q := (a / b)%Z in
  match Z.compare (2 * (a mod b)) b with
  | Lt => q
  | Gt => (q + 1)%Z
  | Eq => if Z.even q then q else (q + 1)%Z
  end.

(** [floor(log2(n / d))] for [n, d > 0], computed as
    [floor(log2(floor(n * 2^k / d))) - k] with [2^k > d], so that the
    quotient is at least 1. *)
Definition flog2q (n d : Z) : Z :=
  let k := (Z.log2 d + 1)%Z in (Z.log2 (n * 2 ^ k / d) - k)%Z.

(** The double nearest to [n / d] ([n, d > 0]) as [(m, e)]: the exponent
    [e] puts [n / d / 2^e] in [[2^52, 2^53)], or is [-1074] for
    subnormals, and [m] is [n / d / 2^e] rounded half to even. *)
Definition round_pos (n d : Z) : Z * Z :=
  let e := Z.max (flog2q n d - 52) (-1074) in
  (if (0 <=? e)%Z then rne_div n (d * 2 ^ e) else rne_div (n * 2 ^ (- e)) d, e).

(** IEEE 754 round-to-nearest-even of the rational [n / d] ([d > 0]), with
    overflow to an infinity: the result of CPython's [int / int] (which
    raises [OverflowError] where this gives an infinity) and of every float
    operation below. *)
Definition round_ratio (n d : Z) : pyfloat :=
  if (n =? 0)%Z then FFinite 0 0 else
  let (m, e) := round_pos (Z.abs n) d in
  if (0 <=? e)%Z && (2 ^ 1024 <=? m * 2 ^ e)%Z then FInf (n <? 0)%Z
  else FFinite (if (n <? 0)%Z then (- m)%Z else m) e.

(** [float(z)] for an int: rounded to the nearest double; [OverflowError]
    when that is out of range ([int too large to convert to float]). *)
Definition int_to_float (z : Z) : result pyfloat :=
  match round_ratio z 1 with
  | FInf _ => Error OverflowError
  | f => Ok f
  end.

(** [x * y] on floats (IEEE 754: [nan] absorbs, [0 * inf] is [nan], the
    exact product of finite values is rounded). *)
Definition float_mul (x y : pyfloat) : pyfloat :=
  match x, y with
  | FNaN, _ | _, FNaN => FNaN
  | FInf s, FInf t => FInf (xorb s t)
  | FInf s, FFinite m _ | FFinite m _, FInf s =>
      if (m =? 0)%Z then FNaN else FInf (xorb s (m <? 0)%Z)
  | FFinite m1 e1, FFinite m2 e2 =>
      let e := (e1 + e2)%Z in
      if (0 <=? e)%Z then round_ratio (m1 * m2 * 2 ^ e) 1
      else round_ratio (m1 * m2) (2 ^ (- e))
  end.

(** A number as a float operand: bools count as [0.0] and [1.0], ints go
    through [float(z)]. *)
Definition py_to_float (v : pyval) : result pyfloat :=
  match v with
  | PyBool b => Ok (FFinite (if b then 1 else 0) 0)
  | PyInt z => int_to_float z
  | PyFloat f => Ok f
  end.

(** [a * b]: bools count as ints; a float operand makes the product a
    float, the other operand being converted first. *)
Definition py_mul (a b : pyval) : result pyval :=
  match a, b with
  | PyFloat _, _ | _, PyFloat _ =>
      match py_to_float a with
      | Error e => Error e
      | Ok x =>
          match py_to_float b with
          | Error e => Error e
          | Ok y => Ok (PyFloat (float_mul x y))
          end
      end
  | _, _ =>
      let z v := match v with PyBool true => 1%Z | PyBool false => 0%Z
                             | PyInt z => z | PyFloat _ => 0%Z end in
      Ok (PyInt (z a * z b)%Z)
  end.

(** A number on the extended real line, for comparisons; [nan] has none. *)
Inductive ext_real : Type :=
| ERFin (q : Q)
| ERInf (neg : bool).

Definition py_num (v : pyval) : option ext_real :=
  match v with
  | PyBool b => Some (ERFin (if b then 1 else 0)%Q)
  | PyInt z => Some (ERFin (inject_Z z))
  | PyFloat (FFinite m e) => Some (ERFin (fval m e))
  | PyFloat (FInf s) => Some (ERInf s)
  | PyFloat FNaN => None
  end.

Definition ext_lt (x y : ext_real) : bool :=
  match x, y with
  | ERFin p, ERFin q => match Qcompare p q with Lt => true | _ => false end
  | ERInf true, ERInf true => false
  | ERInf true, _ => true
  | _, ERInf true => false
  | ERInf false, _ => false
  | ERFin _, ERInf false => true
  end.

(** [a < b] on Python numbers: ints and floats are compared exactly, any
    comparison with [nan] is false. *)
Definition py_lt (a b : pyval) : bool :=
  match py_num a, py_num b with
  | Some x, Some y => ext_lt x y
  | _, _ => false
  end.

(** [min(a, b)] returns [a] unless [b < a]. *)
Definition py_min (a b : pyval) : pyval := if py_lt b a then b else a.

(** [math.ceil(x)]: [OverflowError] on an infinity, [ValueError] on [nan]. *)
Definition math_ceil (x : pyfloat) : result Z :=
  match x with
  | FFinite m e =>
      Ok (if (0 <=? e)%Z then (m * 2 ^ e)%Z
          else ((m + 2 ^ (- e) - 1) / 2 ^ (- e))%Z)
  | FInf _ => Error OverflowError
  | FNaN => Error ValueError
  end.

(** The check of [BatchSampler.__init__]:
    [if not isinstance(batch_size, int) or isinstance(batch_size, bool)
        or batch_size <= 0: raise ValueError]. *)
Definition check_batch_size (v : pyval) : result nat :=
  match v with
  | PyInt z => if (0 <? z)%Z then Ok (Z.to_nat z) else Error ValueError
  | _ => Error ValueError
  end.

(** ** [identity] and [SortedSampler] *)

Definition identity {X : Type} (x : X) : X := x.

Section Sorted_sampler.

Variable K : Type.
(** Python's [<] on sort keys. *)
Variable ltb : K -> K -> bool.

(** [enumerate(keys)], counting from [n]. *)
Fixpoint enumerate (n : nat) (l : list K) : list (nat * K) :=
  match l with
  | [] => []
  | k :: l' => (n, k) :: enumerate (S n) l'
  end.

(** [sorted(zip_, key=lambda r: r[1])] is a stable sort on the second
    component; we use a stable insertion sort, which gives the same list as
    any stable sort when [<] is a strict weak order. *)
Fixpoint insert_by (x : nat * K) (l : list (nat * K)) : list (nat * K) :=
  match l with
  | [] => [x]
  | y :: l' => if ltb (snd y) (snd x) then y :: insert_by x l' else x :: l
  end.

Fixpoint sort_by_key (l : list (nat * K)) : list (nat * K) :=
  match l with
  | [] => []
  | x :: l' => insert_by x (sort_by_key l')
  end.

(** [before x y]: [x] may precede [y] in the stable ascending order. *)
Definition before (x y : nat * K) : Prop :=
  ltb (snd y) (snd x) = false /\
  (ltb (snd x) (snd y) = false -> fst x < fst y).

Variable A : Type.

(** [SortedSampler(data, sort_key).sorted_indexes] *)
Definition sorted_indexes (sort_key : A -> K) (data : list A) : list nat :=
  map fst (sort_by_key (enumerate 0 (map sort_key data))).

Record SortedSampler : Type := mkSortedSampler {
  ss_data : list A;
  ss_sort_key : A -> K;
  ss_sorted_indexes : list nat
}.

(** [SortedSampler.__init__]: the order is computed once. *)
Definition make_SortedSampler (data : list A) (sort_key : A -> K)
  : SortedSampler :=
  mkSortedSampler data sort_key (sorted_indexes sort_key data).

(** [__iter__] returns [iter(self.sorted_indexes)]; [__len__] is
    [len(self.data)]. *)
Definition ss_iter (s : SortedSampler) : list nat := ss_sorted_indexes s.
Definition ss_len (s : SortedSampler) : nat := length (ss_data s).

End Sorted_sampler.

Arguments enumerate {K} n l.
Arguments insert_by {K} ltb x l.
Arguments sort_by_key {K} ltb l.
Arguments sorted_indexes {K} ltb {A} sort_key data.
Arguments make_SortedSampler {K} ltb {A} data sort_key.
Arguments ss_iter {K A} s.
Arguments ss_len {K A} s.
Arguments ss_data {K A} s.
Arguments ss_sort_key {K A} s _.
Arguments ss_sorted_indexes {K A} s.
Arguments before {K} ltb x y.

(** ** [BatchSampler] iteration

    [for idx in sampler: batch.append(idx);
       if len(batch) == batch_size: yield batch; batch = []
     if len(batch) > 0 and not drop_last: yield batch] *)
Fixpoint batch_aux (batch_size : nat) (drop_last : bool) (batch : list nat)
  (l : list nat) : list (list nat) :=
  match l with
  | [] => if (0 <? length batch) && negb drop_last then [batch] else []
  | idx :: l' =>
      let batch' := batch ++ [idx] in
      if length batch' =? batch_size
      then batch' :: batch_aux batch_size drop_last [] l'
      else batch_aux batch_size drop_last batch' l'
  end.

Definition batch_sampler (batch_size : nat) (drop_last : bool) (l : list nat)
  : list (list nat) :=
  batch_aux batch_size drop_last [] l.

(** The integer ceiling of [n / d]. *)
Definition ceil_div (n d : nat) : nat := (n + d - 1) / d.

(** ** [BucketBatchSampler] *)

(** The Source Collection: [len(dataset)] and [dataset[i]]. *)
Record Dataset (A : Type) : Type := mkDataset {
  ds_len : nat;
  ds_get : nat -> A
}.
Arguments mkDataset {A} ds_len ds_get.
Arguments ds_len {A} d.
Arguments ds_get {A} d _.

Section Bucket_batch_sampler.

Variables A K : Type.
Variable ltb : K -> K -> bool.

(** The configuration kept by a constructed sampler.  [collate_fn] is
    applied to each emitted batch and is left out: the model emits the
    batches of indices that are passed to it. *)
Record BucketBatchSampler : Type := mkBBS {
  bb_dataset : Dataset A;
  bb_batch_size : nat;
  bb_drop_last : bool;
  bb_shuffle : bool;
  bb_sort_key : A -> K;
  (** [self.bucket_sampler.batch_size] *)
  bb_bucket_size : nat
}.

(** [BucketBatchSampler.__init__(dataset, batch_size, collate_fn,
    drop_last, shuffle, sort_key, bucket_size_multiplier)]:
    - [RandomSampler(dataset)] raises [ValueError] when [len(dataset) <= 0]
      ([num_samples should be a positive integer value]);
      [SequentialSampler(dataset)] never raises;
    - [super().__init__(sampler, batch_size, drop_last)] checks
      [batch_size];
    - [batch_size * bucket_size_multiplier] raises [OverflowError] when a
      float multiplier meets an int too large to convert to a float;
    - [BatchSampler(sampler, min(batch_size * bucket_size_multiplier,
      len(sampler)), False)] checks the bucket size. *)
Definition make_BucketBatchSampler (dataset : Dataset A) (batch_size : pyval)
  (drop_last shuffle : bool) (sort_key : A -> K)
  (bucket_size_multiplier : pyval) : result BucketBatchSampler :=
  if shuffle && (ds_len dataset =? 0) then Error ValueError else
  match check_batch_size batch_size with
  | Error e => Error e
  | Ok bs =>
      match py_mul batch_size bucket_size_multiplier with
      | Error e => Error e
      | Ok p =>
          match check_batch_size
                  (py_min p (PyInt (Z.of_nat (ds_len dataset)))) with
          | Error e => Error e
          | Ok bucket_size =>
              Ok (mkBBS dataset bs drop_last shuffle sort_key bucket_size)
          end
      end
  end.

(** [BucketBatchSampler.__len__]: [len(self.sampler) // self.batch_size]
    with [drop_last], otherwise [math.ceil(len(self.sampler) /
    self.batch_size)], where [/] gives the double nearest to the quotient. *)
Definition bb_len (s : BucketBatchSampler) : result nat :=
  let n := ds_len (bb_dataset s) in
  if bb_drop_last s then Ok (n / bb_batch_size s)
  else match math_ceil (round_ratio (Z.of_nat n) (Z.of_nat (bb_batch_size s))) with
       | Ok c => Ok (Z.to_nat c)
       | Error e => Error e
       end.

(** The random state of torch and [torch.randperm]. *)
Variable S : Type.
Variable randperm : S -> nat -> list nat * S.

(** [SubsetRandomSampler(indices)]: [for i in torch.randperm(len(indices)):
    yield indices[i]]. *)
Definition subset_random_sampler (r : S) (indices : list (list nat))
  : list (list nat) * S :=
  let (p, r') := randperm r (length indices) in
  (map (fun i => nth i indices []) p, r').

(** [list(BatchSampler(SortedSampler([self.dataset[i] for i in bucket],
    self.sort_key), self.batch_size, self.drop_last))]: batches of
    positions inside [bucket]. *)
Definition bucket_chunks (s : BucketBatchSampler) (bucket : list nat)
  : list (list nat) :=
  batch_sampler (bb_batch_size s) (bb_drop_last s)
    (sorted_indexes ltb (bb_sort_key s)
       (map (ds_get (bb_dataset s)) bucket)).

(** The sorted view of a bucket, as global indices. *)
Definition bucket_order (s : BucketBatchSampler) (bucket : list nat)
  : list nat :=
  map (fun i => nth i bucket 0)
    (sorted_indexes ltb (bb_sort_key s) (map (ds_get (bb_dataset s)) bucket)).

(** The batches of a bucket as global indices, in their natural order
    (before [SubsetRandomSampler] reorders them). *)
Definition bucket_batches (s : BucketBatchSampler) (bucket : list nat)
  : list (list nat) :=
  map (map (fun i => nth i bucket 0)) (bucket_chunks s bucket).

(** The loop over buckets of [__iter__]; each emitted batch is
    [[bucket[i] for i in batch]] (positions are always in range). *)
Fixpoint iter_buckets (s : BucketBatchSampler) (r : S)
  (buckets : list (list nat)) : list (list (list nat)) * S :=
  match buckets with
  | [] => ([], r)
  | bucket :: rest =>
      let (order, r1) := subset_random_sampler r (bucket_chunks s bucket) in
      let (later, r2) := iter_buckets s r1 rest in
      (map (map (fun i => nth i bucket 0)) order :: later, r2)
  end.

(** The outer sampler: [RandomSampler] draws a permutation,
    [SequentialSampler] yields [0 .. N-1]. *)
Definition outer_sampler (s : BucketBatchSampler) (r : S) : list nat * S :=
  if bb_shuffle s then randperm r (ds_len (bb_dataset s))
  else (seq 0 (ds_len (bb_dataset s)), r).

(** One full iteration, with the batches grouped by bucket. *)
Definition bb_iter_grouped (s : BucketBatchSampler) (r : S)
  : list (list (list nat)) * S :=
  let (P, r1) := outer_sampler s r in
  iter_buckets s r1 (batch_sampler (bb_bucket_size s) false P).

(** [BucketBatchSampler.__iter__]: the batches of one full iteration. *)
Definition bb_iter (s : BucketBatchSampler) (r : S) : list (list nat) * S :=
  let (g, r') := bb_iter_grouped s r in (concat g, r').

End Bucket_batch_sampler.

Arguments make_BucketBatchSampler {A K} dataset batch_size drop_last shuffle
  sort_key bucket_size_multiplier.
Arguments bb_len {A K} s.
Arguments mkBBS {A K} bb_dataset bb_batch_size bb_drop_last bb_shuffle
  bb_sort_key bb_bucket_size.
Arguments bb_dataset {A K} b.
Arguments bb_batch_size {A K} b.
Arguments bb_drop_last {A K} b.
Arguments bb_shuffle {A K} b.
Arguments bb_sort_key {A K} b _.
Arguments bb_bucket_size {A K} b.
Arguments subset_random_sampler {S} randperm r indices.
Arguments bucket_chunks {A K} ltb s bucket.
Arguments bucket_order {A K} ltb s bucket.
Arguments bucket_batches {A K} ltb s bucket.
Arguments iter_buckets {A K} ltb {S} randperm s r buckets.
Arguments outer_sampler {A K S} randperm s r.
Arguments bb_iter_grouped {A K} ltb {S} randperm s r.
Arguments bb_iter {A K} ltb {S} randperm s r.

(** ** A permutation source for concrete runs

    [rot_randperm r n] is the rotation of [0 .. n-1] by [r mod n]; the
    state counts the draws. *)
Definition rot_randperm (r n : nat) : list nat * nat :=
  (skipn (r mod n) (seq 0 n) ++ firstn (r mod n) (seq 0 n), S r).

Definition nat_dataset (l : list nat) : Dataset nat :=
  mkDataset (length l) (fun i => nth i l 0).

(** ** The NLI data: [NLIDataset] and [collate_nli]

    Python [str]s are sequences of code points; [str_lit] reads an ASCII
    literal. The exceptions of this part of the module, and results that
    may raise them. *)
Definition pystr := list nat.

Definition str_lit (s : String.string) : pystr :=
  map Ascii.nat_of_ascii (String.list_ascii_of_string s).

Definition pystr_eqb (a b : pystr) : bool :=
  if list_eq_dec Nat.eq_dec a b then true else false.

Inductive py_exn : Type :=
| PyValueError
| PyIndexError
| PyKeyError
| PyFileNotFoundError
| PyIsADirectoryError
| PyPermissionError
| PyUnicodeDecodeError
| PyCsvError.

Inductive py_result (T : Type) : Type :=
| PyOk (v : T)
| PyErr (e : py_exn).
Arguments PyOk {T} v.
Arguments PyErr {T} e.

Definition py_bind {X Y : Type} (m : py_result X) (f : X -> py_result Y)
  : py_result Y :=
  match m with
  | PyOk x => f x
  | PyErr e => PyErr e
  end.

Notation "'let*' x ':=' m 'in' f" := (py_bind m (fun x => f))
  (at level 200, x ident, m at level 100, f at level 200).

(** [l[i]] on a Python list: negative indices count from the end;
    [IndexError] outside [-len(l) .. len(l)-1]. *)
Definition py_index {X : Type} (l : list X) (i : Z) : py_result X :=
  let n := Z.of_nat (length l) in
  if ((i <? - n) || (n <=? i))%Z then PyErr PyIndexError
  else match nth_error l (Z.to_nat (if (i <? 0)%Z then n + i else i)) with
       | Some x => PyOk x
       | None => PyErr PyIndexError
       end.

(** [d[k]] on a dict literal with [str] keys: [KeyError] for a missing
    key. *)
Definition dict_get {V : Type} (d : list (pystr * V)) (k : pystr)
  : py_result V :=
  match find (fun kv => pystr_eqb (fst kv) k) d with
  | Some (_, v) => PyOk v
  | None => PyErr PyKeyError
  end.

(** [_NLI_DIC_LABELS] *)
Definition NLI_DIC_LABELS : list (pystr * Z) :=
  [(str_lit "entailment", 2%Z); (str_lit "neutral", 1%Z);
   (str_lit "contradiction", 0%Z)].

(** [NLIDataset._PATHS] *)
Definition NLI_PATHS : list (pystr * list pystr) :=
  [(str_lit "train", [str_lit "esnli_train_1.csv"; str_lit "esnli_train_2.csv"]);
   (str_lit "dev", [str_lit "esnli_dev.csv"]);
   (str_lit "test", [str_lit "esnli_test.csv"])].

(** [os.path.join(a, b)] (POSIX): an absolute [b] replaces [a]; otherwise
    [b] is appended, with a ['/'] unless [a] is empty or ends with one. *)
Definition os_path_join (a b : pystr) : pystr :=
  if match b with c :: _ => c =? 47 | [] => false end then b
  else if match rev a with c :: _ => c =? 47 | [] => true end then a ++ b
  else a ++ [47] ++ b.

(** A loaded [NLIDataset]: [self._dataset], the CSV rows without the
    header lines, and [self.salient_features]. *)
Record NLIDataset : Type := mkNLIDataset {
  nli_dataset : list (list pystr);
  nli_salient_features : bool
}.

(** The files: [fs p] is the outcome of [open(p, encoding="utf-8")] and
    of reading it through [csv.reader(out, delimiter=',')]: the rows, or
    the exception raised ([FileNotFoundError], [IsADirectoryError] or
    [PermissionError] from [open], [UnicodeDecodeError] or [csv.Error]
    while reading). The loop of [__init__] extends the rows with each
    file's rows but its first; an exception leaves the loop. *)
Fixpoint nli_load (fs : pystr -> py_result (list (list pystr)))
  (acc : list (list pystr)) (paths : list pystr)
  : py_result (list (list pystr)) :=
  match paths with
  | [] => PyOk acc
  | p :: ps =>
      match fs p with
      | PyErr e => PyErr e
      | PyOk rows => nli_load fs (acc ++ skipn 1 rows) ps
      end
  end.

(** [NLIDataset.__init__(dir, type, sample_dev, salient_features)];
    [sample_dev] is not used by the code. *)
Definition make_NLIDataset (fs : pystr -> py_result (list (list pystr)))
  (dir type : pystr) (sample_dev salient_features : bool)
  : py_result NLIDataset :=
  let* names := dict_get NLI_PATHS type in
  let* rows := nli_load fs [] (map (os_path_join dir) names) in
  PyOk (mkNLIDataset rows salient_features).

(** [NLIDataset.__len__] *)
Definition nli_len (d : NLIDataset) : nat := length (nli_dataset d).

(** The tuple returned by [__getitem__]:
    [(x[0], x[1], x[2])] followed by the four salient fields, if any. *)
Record NLIItem : Type := mkNLIItem {
  premise : pystr;
  hypothesis : pystr;
  label : Z;
  salient : list pystr
}.

(** [NLIDataset.__getitem__(item)]; the list literal is evaluated left to
    right. *)
Definition nli_getitem (d : NLIDataset) (item : Z) : py_result NLIItem :=
  let* row := py_index (nli_dataset d) item in
  let* x2 := py_index row 2 in
  let* x3 := py_index row 3 in
  let* x1 := py_index row 1 in
  let* lbl := dict_get NLI_DIC_LABELS x1 in
  if nli_salient_features d then
    let* x5 := py_index row 5 in
    let* x6 := py_index row 6 in
    let* x7 := py_index row 7 in
    let* x8 := py_index row 8 in
    PyOk (mkNLIItem x2 x3 lbl [x5; x6; x7; x8])
  else PyOk (mkNLIItem x2 x3 lbl []).

(** Tensors built by [collate_nli]: a 2-D [long] tensor, a 2-D [bool]
    tensor, a 1-D [long] tensor. [.to(device)] keeps the values. *)
Inductive tensor : Type :=
| LongMatrix (rows : list (list Z))
| BoolMatrix (rows : list (list bool))
| LongVector (v : list Z).

(** [torch.tensor(rows)] on a list of int lists: [ValueError] when the rows
    have different lengths. *)
Definition torch_tensor_2d (rows : list (list Z)) : py_result (list (list Z)) :=
  match rows with
  | [] => PyOk []
  | r :: rs =>
      if forallb (fun r' => length r' =? length r) rs then PyOk rows
      else PyErr PyValueError
  end.

(** [max(l)] on a list of ints: [ValueError] on an empty list. *)
Definition py_max (l : list nat) : py_result nat :=
  match l with
  | [] => PyErr PyValueError
  | _ => PyOk (list_max l)
  end.

Section Collate.

(** [tokenizer.encode(a, b, max_length=509)] and [tokenizer.pad_token_id]. *)
Variable encode : pystr -> pystr -> list Z.
Variable pad_token_id : Z.

(** [collate_nli(instances, tokenizer, return_attention_masks,
    pad_to_max_length, device)]; [[pad] * k] is empty for [k <= 0], as
    the truncated subtraction on [nat]. *)
Definition collate_nli (instances : list NLIItem)
  (return_attention_masks pad_to_max_length : bool)
  : py_result (list tensor) :=
  let token_ids := map (fun x => encode (premise x) (hypothesis x)) instances in
  let* batch_max_len :=
    (if pad_to_max_length then PyOk 512
     else py_max (map (@length Z) token_ids)) in
  let* padded_ids :=
    torch_tensor_2d
      (map (fun s => s ++ repeat pad_token_id (batch_max_len - length s))
         token_ids) in
  let labels := map label instances in
  PyOk ([LongMatrix padded_ids] ++
        (if return_attention_masks
         then [BoolMatrix (map (map (fun t => (0 <? t)%Z)) padded_ids)]
         else []) ++
        [LongVector labels]).

End Collate.

(** ** The loaders of [src/models/train_cnn.py]

    [sort_key = lambda x: len(x[0]) + len(x[1])] and
    [BucketBatchSampler(batch_size=256, sort_key=sort_key, dataset=...,
    collate_fn=collate_fn)], the other arguments at their defaults. *)
Definition train_sort_key (x : NLIItem) : nat :=
  length (premise x) + length (hypothesis x).

Definition train_loader (ds : Dataset NLIItem)
  : result (BucketBatchSampler NLIItem nat) :=
  make_BucketBatchSampler ds (PyInt 256) false true train_sort_key (PyInt 100).

(** The [token_ids] of [collate_nli]. *)
Definition token_ids (encode : pystr -> pystr -> list Z)
  (instances : list NLIItem) : list (list Z) :=
  map (fun x => encode (premise x) (hypothesis x)) instances.

(** A tokenizer for concrete runs: [[CLS] a [SEP] b [SEP]] with the code
    points as ids; its pad id is [0]. *)
Definition toy_encode (a b : pystr) : list Z :=
  [101%Z] ++ map Z.of_nat a ++ [102%Z] ++ map Z.of_nat b ++ [102%Z].

Definition nli_item_of (p h : String.string) (l : Z) : NLIItem :=
  mkNLIItem (str_lit p) (str_lit h) l [].

(** * Proofs *)

(** ** [SortedSampler] *)

Section Sorted_sampler_facts.

Variable K : Type.
Variable ltb : K -> K -> bool.

Lemma insert_by_perm (x : nat * K) (l : list (nat * K)) :
  Permutation (insert_by ltb x l) (x :: l).
Proof.
  induction l as [|y l IH]; simpl; [reflexivity|].
  destruct (ltb (snd y) (snd x)); [|reflexivity].
  rewrite IH. apply perm_swap.
Qed.

Lemma sort_by_key_perm (l : list (nat * K)) :
  Permutation (sort_by_key ltb l) l.
Proof.
  induction l as [|x l IH]; simpl; [reflexivity|].
  rewrite insert_by_perm. now apply perm_skip.
Qed.

Lemma map_fst_enumerate (n : nat) (l : list K) :
  map fst (enumerate n l) = seq n (length l).
Proof.
  revert n; induction l as [|k l IH]; intro n; simpl; [reflexivity|].
  now rewrite IH.
Qed.

Lemma in_enumerate (n i : nat) (k : K) (l : list K) :
  In (i, k) (enumerate n l) -> n <= i /\ nth_error l (i - n) = Some k.
Proof.
  revert n; induction l as [|k' l IH]; intros n H; simpl in H; [contradiction|].
  destruct H as [H|H].
  - inversion H; subst. rewrite Nat.sub_diag. split; [lia|reflexivity].
  - destruct (IH (S n) H) as [Hle Hk].
    split; [lia|].
    replace (i - n) with (S (i - S n)) by lia. exact Hk.
Qed.

Variable A : Type.

(** The positions yielded are a permutation of [0 .. n-1]. *)
Lemma sorted_indexes_perm (key : A -> K) (data : list A) :
  Permutation (sorted_indexes ltb key data) (seq 0 (length data)).
Proof.
  unfold sorted_indexes.
  rewrite (Permutation_map fst (sort_by_key_perm _)).
  now rewrite map_fst_enumerate, length_map.
Qed.

End Sorted_sampler_facts.

(** Under a strict weak order on keys (Python's [<] on numbers without NaN,
    strings, tuples of those), the sort is ascending and stable. *)
Section Sorted_sampler_order.

Variable K : Type.
Variable ltb : K -> K -> bool.
Hypothesis ltb_asym : forall a b, ltb a b = true -> ltb b a = false.
Hypothesis ltb_cotrans :
  forall a b c, ltb a c = true -> ltb a b = true \/ ltb b c = true.

Lemma ltb_neg_trans (a b c : K) :
  ltb c b = false -> ltb b a = false -> ltb c a = false.
Proof.
  intros H1 H2. destruct (ltb c a) eqn:E; [|reflexivity].
  destruct (ltb_cotrans c b a E) as [H|H]; congruence.
Qed.

Lemma insert_by_sorted (x : nat * K) (l : list (nat * K)) :
  StronglySorted (before ltb) l -> Forall (fun y => fst x < fst y) l ->
  StronglySorted (before ltb) (insert_by ltb x l).
Proof.
  induction l as [|y l IH]; intros Hs Hlt; simpl.
  - repeat constructor.
  - apply StronglySorted_inv in Hs as [Hs Hy].
    inversion Hlt as [|? ? Hxy Hl]; subst.
    destruct (ltb (snd y) (snd x)) eqn:E.
    + constructor; [now apply IH|].
      eapply Permutation_Forall; [symmetry; apply insert_by_perm|].
      constructor; [|exact Hy].
      split; [now apply ltb_asym|congruence].
    + constructor; [now constructor|].
      constructor; [split; [exact E|intros _; exact Hxy]|].
      rewrite Forall_forall in Hy, Hl |- *.
      intros z Hz. destruct (Hy z Hz) as [Hzy _].
      split; [eapply ltb_neg_trans; eassumption|intros _; now apply Hl].
Qed.

Lemma enumerate_ge (n : nat) (l : list K) :
  Forall (fun y => n <= fst y) (enumerate n l).
Proof.
  revert n; induction l as [|k l IH]; intro n; simpl; constructor; [simpl; lia|].
  eapply Forall_impl; [|apply IH]. simpl; intros; lia.
Qed.

Lemma sort_by_key_sorted (n : nat) (l : list K) :
  StronglySorted (before ltb) (sort_by_key ltb (enumerate n l)).
Proof.
  revert n; induction l as [|k l IH]; intro n; simpl; [constructor|].
  apply insert_by_sorted; [apply IH|].
  eapply Permutation_Forall; [symmetry; apply sort_by_key_perm|].
  eapply Forall_impl; [|apply enumerate_ge]. simpl; intros; lia.
Qed.

Lemma StronglySorted_nth_error {X : Type} (R : X -> X -> Prop) (l : list X)
  (i j : nat) (a b : X) :
  StronglySorted R l -> i < j -> nth_error l i = Some a ->
  nth_error l j = Some b -> R a b.
Proof.
  revert i j; induction l as [|x l IH]; intros i j Hs Hij Ha Hb;
    [destruct i; discriminate|].
  apply StronglySorted_inv in Hs as [Hs Hx].
  destruct i as [|i], j as [|j]; try lia; simpl in Ha, Hb.
  - inversion Ha; subst. rewrite Forall_forall in Hx.
    apply Hx. eapply nth_error_In; eassumption.
  - eapply (IH i j); eauto; lia.
Qed.

Variable A : Type.

(** The order of [sorted_indexes], stated on positions of the output. *)
Lemma sorted_indexes_order (key : A -> K) (data : list A)
  (i j a b : nat) (xa xb : A) :
  i < j ->
  nth_error (sorted_indexes ltb key data) i = Some a ->
  nth_error (sorted_indexes ltb key data) j = Some b ->
  nth_error data a = Some xa -> nth_error data b = Some xb ->
  ltb (key xb) (key xa) = false /\ (ltb (key xa) (key xb) = false -> a < b).
Proof.
  unfold sorted_indexes. rewrite !nth_error_map.
  intros Hij Ha Hb Hxa Hxb.
  destruct (nth_error (sort_by_key ltb (enumerate 0 (map key data))) i)
    as [[a' ka]|] eqn:Ei; [|discriminate].
  destruct (nth_error (sort_by_key ltb (enumerate 0 (map key data))) j)
    as [[b' kb]|] eqn:Ej; [|discriminate].
  simpl in Ha, Hb. inversion Ha; inversion Hb; subst a' b'.
  pose proof (StronglySorted_nth_error _ _ _ _ _ _
                (sort_by_key_sorted 0 _) Hij Ei Ej) as [H1 H2].
  assert (Hka : ka = key xa).
  { apply nth_error_In in Ei.
    eapply Permutation_in in Ei; [|apply sort_by_key_perm].
    apply in_enumerate in Ei as [_ Ei]. rewrite Nat.sub_0_r in Ei.
    rewrite nth_error_map, Hxa in Ei. simpl in Ei. congruence. }
  assert (Hkb : kb = key xb).
  { apply nth_error_In in Ej.
    eapply Permutation_in in Ej; [|apply sort_by_key_perm].
    apply in_enumerate in Ej as [_ Ej]. rewrite Nat.sub_0_r in Ej.
    rewrite nth_error_map, Hxb in Ej. simpl in Ej. congruence. }
  subst ka kb. simpl in H1, H2. split; assumption.
Qed.

(** Keys already in non-decreasing order are left in place. *)
Lemma sort_by_key_enumerate_sorted (n : nat) (l : list K) :
  Sorted (fun a b => ltb b a = false) l ->
  sort_by_key ltb (enumerate n l) = enumerate n l.
Proof.
  revert n; induction l as [|k l IH]; intros n Hs; [reflexivity|].
  apply Sorted_inv in Hs as [Hs Hhd]. simpl. rewrite (IH (S n) Hs).
  destruct l as [|k' l]; [reflexivity|].
  inversion Hhd as [|? ? Hk]; subst. simpl. now rewrite Hk.
Qed.

Lemma Sorted_of_adjacent {X : Type} (R : X -> X -> Prop) (l : list X) :
  (forall i x y, nth_error l i = Some x -> nth_error l (S i) = Some y ->
     R x y) ->
  Sorted R l.
Proof.
  induction l as [|x l IH]; intro Hadj; constructor.
  - apply IH. intros i a b Ha Hb. exact (Hadj (S i) a b Ha Hb).
  - destruct l as [|y l]; constructor.
    exact (Hadj 0 x y eq_refl eq_refl).
Qed.

(** [sorted_indexes] is [0 .. n-1] exactly when the keys are in
    non-decreasing order. *)
Lemma sorted_indexes_seq_iff (key : A -> K) (data : list A) :
  sorted_indexes ltb key data = seq 0 (length data) <->
  Sorted (fun a b => ltb b a = false) (map key data).
Proof.
  split.
  - intro Hseq. apply Sorted_of_adjacent. intros i ka kb Ha Hb.
    rewrite nth_error_map in Ha, Hb.
    destruct (nth_error data i) as [xa|] eqn:Ea; [|discriminate].
    destruct (nth_error data (S i)) as [xb|] eqn:Eb; [|discriminate].
    simpl in Ha, Hb. inversion Ha; inversion Hb; subst.
    assert (Hlt : S i < length data).
    { apply nth_error_Some. congruence. }
    refine (proj1 (sorted_indexes_order key data i (S i) i (S i) xa xb
                     _ _ _ Ea Eb)); [lia| |];
      rewrite Hseq, nth_error_seq;
      (replace (Nat.ltb i (length data)) with true
        by (symmetry; apply Nat.ltb_lt; lia)) ||
      (replace (Nat.ltb (S i) (length data)) with true
        by (symmetry; apply Nat.ltb_lt; lia));
      reflexivity.
  - intro Hs. unfold sorted_indexes.
    rewrite sort_by_key_enumerate_sorted by exact Hs.
    now rewrite map_fst_enumerate, length_map.
Qed.

End Sorted_sampler_order.

(** ** [BatchSampler] *)

Section Batch_sampler_facts.

Variable bs : nat.
Hypothesis bs_pos : 0 < bs.

(** Full batches of [batch_size] elements, then the leftover [rest], which
    is emitted unless [drop_last]. *)
Lemma batch_aux_spec (dl : bool) (cur l : list nat) :
  length cur < bs ->
  exists full rest,
    batch_aux bs dl cur l =
      full ++ (if (0 <? length rest) && negb dl then [rest] else []) /\
    Forall (fun b => length b = bs) full /\
    concat full ++ rest = cur ++ l /\
    length rest < bs.
Proof.
  revert cur; induction l as [|x l IH]; intros cur Hcur; simpl.
  - exists [], cur. rewrite app_nil_r. repeat split; auto.
  - destruct (length (cur ++ [x]) =? bs) eqn:E.
    + apply Nat.eqb_eq in E.
      destruct (IH [] ltac:(simpl; lia)) as (full & rest & Hb & Hf & Hc & Hr).
      exists ((cur ++ [x]) :: full), rest.
      rewrite Hb. repeat split; auto.
      simpl. rewrite <- app_assoc, Hc. simpl. now rewrite <- app_assoc.
    + apply Nat.eqb_neq in E. rewrite length_app in E; simpl in E.
      destruct (IH (cur ++ [x]) ltac:(rewrite length_app; simpl; lia))
        as (full & rest & Hb & Hf & Hc & Hr).
      exists full, rest. repeat split; auto.
      rewrite Hc, <- app_assoc. reflexivity.
Qed.

Lemma length_concat_full (full : list (list nat)) :
  Forall (fun b => length b = bs) full ->
  length (concat full) = bs * length full.
Proof.
  induction 1 as [|b full Hb _ IH]; simpl; [lia|].
  rewrite length_app, IH, Hb. lia.
Qed.

Lemma batch_aux_chunk (dl : bool) (cur c y : list nat) :
  c <> [] -> length cur + length c = bs ->
  batch_aux bs dl cur (c ++ y) = (cur ++ c) :: batch_aux bs dl [] y.
Proof.
  revert cur; induction c as [|x c IH]; intros cur Hc Hlen; [congruence|].
  simpl. simpl in Hlen.
  destruct c as [|x' c]; simpl in Hlen.
  - simpl. rewrite length_app; simpl.
    replace (length cur + 1 =? bs) with true by (symmetry; apply Nat.eqb_eq; lia).
    reflexivity.
  - rewrite length_app; simpl.
    replace (length cur + 1 =? bs) with false
      by (symmetry; apply Nat.eqb_neq; lia).
    pose proof (IH (cur ++ [x]) ltac:(discriminate)
                  ltac:(rewrite length_app; simpl in *; lia)) as IH'.
    simpl in IH'. rewrite IH'.
    now rewrite <- app_assoc.
Qed.

Lemma batch_aux_concat_full (dl : bool) (full : list (list nat)) (y : list nat) :
  Forall (fun b => length b = bs) full ->
  batch_aux bs dl [] (concat full ++ y) = full ++ batch_aux bs dl [] y.
Proof.
  induction 1 as [|b full Hb _ IH]; [reflexivity|].
  simpl. rewrite <- app_assoc, batch_aux_chunk.
  - now rewrite IH.
  - intro E; subst b; simpl in Hb; lia.
  - simpl; lia.
Qed.

(** A prefix whose length is a multiple of [batch_size] is batched on its
    own. *)
Lemma batch_sampler_app (dl : bool) (x y : list nat) :
  length x mod bs = 0 ->
  batch_sampler bs dl (x ++ y) = batch_sampler bs dl x ++ batch_sampler bs dl y.
Proof.
  intro Hx. unfold batch_sampler.
  destruct (batch_aux_spec dl [] x ltac:(simpl; lia))
    as (full & rest & Hb & Hf & Hc & Hr).
  simpl in Hc.
  assert (Hlen : length x = bs * length full + length rest).
  { rewrite <- Hc, length_app, length_concat_full by exact Hf. reflexivity. }
  assert (rest = []) as ->.
  { destruct rest as [|z rest]; [reflexivity|]. exfalso.
    rewrite Hlen, Nat.add_comm, Nat.mul_comm, Nat.Div0.mod_add, Nat.mod_small in Hx
      by assumption.
    simpl in Hx; discriminate. }
  rewrite app_nil_r in Hc. rewrite Hb, <- Hc. simpl. rewrite app_nil_r.
  now apply batch_aux_concat_full.
Qed.

End Batch_sampler_facts.

Lemma batch_aux_map (f : nat -> nat) (bs : nat) (dl : bool) (cur l : list nat) :
  map (map f) (batch_aux bs dl cur l) = batch_aux bs dl (map f cur) (map f l).
Proof.
  revert cur; induction l as [|x l IH]; intro cur; simpl.
  - rewrite length_map. now destruct ((0 <? length cur) && negb dl).
  - rewrite !length_app, length_map. simpl.
    destruct (length cur + 1 =? bs); simpl;
      rewrite IH, map_app; reflexivity.
Qed.

Lemma ceil_div_split (bs q r : nat) :
  0 < bs -> r < bs ->
  ceil_div (bs * q + r) bs = q + (if 0 <? r then 1 else 0).
Proof.
  intros Hbs Hr. unfold ceil_div.
  destruct r as [|r]; simpl.
  - replace (bs * q + 0 + bs - 1) with (q * bs + (bs - 1)) by lia.
    rewrite Nat.div_add_l, Nat.div_small by lia. lia.
  - replace (bs * q + S r + bs - 1) with ((q + 1) * bs + r) by lia.
    rewrite Nat.div_add_l, Nat.div_small by lia. lia.
Qed.

Section Batch_sampler_shape.

Variable bs : nat.
Hypothesis bs_pos : 0 < bs.

Lemma batch_sampler_shape (dl : bool) (l : list nat) :
  exists full rest,
    batch_sampler bs dl l =
      full ++ (if (0 <? length rest) && negb dl then [rest] else []) /\
    Forall (fun b => length b = bs) full /\
    concat full ++ rest = l /\
    length full = length l / bs /\
    length rest = length l mod bs.
Proof.
  destruct (batch_aux_spec bs bs_pos dl [] l ltac:(simpl; lia))
    as (full & rest & Hb & Hf & Hc & Hr).
  exists full, rest. simpl in Hc.
  assert (Hlen : length l = bs * length full + length rest).
  { rewrite <- Hc, length_app, (length_concat_full bs bs_pos) by exact Hf. reflexivity. }
  repeat split; auto.
  - rewrite Hlen, Nat.mul_comm, Nat.div_add_l, Nat.div_small by lia. lia.
  - rewrite Hlen, Nat.add_comm, Nat.mul_comm, Nat.Div0.mod_add, Nat.mod_small
      by lia. reflexivity.
Qed.

(** Every emitted batch is non-empty and holds at most [batch_size]
    indices; with [drop_last] all hold exactly [batch_size]; at most one is
    short; the count is [len // bs] or [ceil(len / bs)]. *)
Lemma batch_sampler_facts (dl : bool) (l : list nat) :
  let out := batch_sampler bs dl l in
  Forall (fun b => 0 < length b <= bs) out /\
  (dl = true -> Forall (fun b => length b = bs) out) /\
  length (filter (fun b => length b <? bs) out) <= 1 /\
  length out = (if dl then length l / bs else ceil_div (length l) bs) /\
  (dl = false -> concat out = l) /\
  (dl = true -> exists drop, concat out ++ drop = l /\
                             length drop = length l mod bs).
Proof.
  destruct (batch_sampler_shape dl l)
    as (full & rest & Hb & Hf & Hc & Hq & Hr).
  assert (Hrb : length rest < bs) by (rewrite Hr; apply Nat.mod_upper_bound; lia).
  cbv zeta. rewrite Hb.
  assert (Hff : filter (fun b => length b <? bs) full = []).
  { clear - Hf. induction Hf as [|b full Hb1 _ IH]; [reflexivity|].
    simpl. rewrite Hb1, Nat.ltb_irrefl. exact IH. }
  repeat split.
  - apply Forall_app; split.
    + eapply Forall_impl; [|exact Hf]. simpl; intros; lia.
    + destruct ((0 <? length rest) && negb dl) eqn:E; [|constructor].
      apply andb_true_iff in E as [E _]. apply Nat.ltb_lt in E.
      repeat constructor; lia.
  - intros ->. rewrite andb_false_r, app_nil_r. exact Hf.
  - rewrite filter_app, Hff, length_app.
    destruct ((0 <? length rest) && negb dl); simpl; [destruct (_ <? _)|]; simpl; lia.
  - rewrite length_app.
    assert (Hl : length l = bs * length full + length rest).
    { rewrite <- Hc, length_app, (length_concat_full bs bs_pos) by exact Hf. reflexivity. }
    destruct dl; simpl.
    + rewrite andb_false_r, Hq. simpl. lia.
    + rewrite andb_true_r, Hl, ceil_div_split by assumption.
      destruct (0 <? length rest); simpl; lia.
  - intros ->. rewrite andb_true_r, concat_app, <- Hc.
    destruct (0 <? length rest) eqn:E; simpl.
    + now rewrite app_nil_r.
    + apply Nat.ltb_ge in E. destruct rest; [|simpl in E; lia].
      reflexivity.
  - intros ->. exists rest. rewrite andb_false_r, app_nil_r. split; assumption.
Qed.

End Batch_sampler_shape.

(** ** Buckets *)

(** All buckets but possibly the last have a length that is a multiple of
    [batch_size]: either the bucket size is a multiple, or it covers the
    whole list and there is one bucket. *)
Lemma buckets_split (bs bsz : nat) (P : list nat) :
  0 < bs -> 0 < bsz -> (bsz mod bs = 0 \/ length P <= bsz) ->
  exists B1 B2, batch_sampler bsz false P = B1 ++ B2 /\
    Forall (fun b => length b mod bs = 0) B1 /\ length B2 <= 1.
Proof.
  intros Hbs Hbsz Hcase.
  destruct (batch_sampler_shape bsz Hbsz false P)
    as (full & rest & Hb & Hf & Hc & Hq & Hr).
  rewrite andb_true_r in Hb.
  destruct Hcase as [Hdiv|Hle].
  - exists full, (if 0 <? length rest then [rest] else []). repeat split.
    + exact Hb.
    + eapply Forall_impl; [|exact Hf]. intros b Hb'. now rewrite Hb'.
    + destruct (0 <? length rest); simpl; lia.
  - exists [], (full ++ (if 0 <? length rest then [rest] else [])).
    repeat split; [exact Hb|constructor|].
    destruct (Nat.eq_dec (length P) bsz) as [Heq|Hneq].
    + rewrite Heq, Nat.div_same, Nat.Div0.mod_same in * by lia.
      rewrite Hr. destruct full as [|f [|f' full]]; simpl in *; lia.
    + rewrite Nat.div_small in Hq by lia.
      destruct full; [|discriminate]. simpl. destruct (_ <? _); simpl; lia.
Qed.

Lemma concat_map_batch_sampler (bs : nat) (dl : bool)
  (B1 B2 : list (list nat)) :
  0 < bs -> Forall (fun b => length b mod bs = 0) B1 -> length B2 <= 1 ->
  concat (map (batch_sampler bs dl) (B1 ++ B2)) =
  batch_sampler bs dl (concat (B1 ++ B2)).
Proof.
  intros Hbs HB1 HB2. induction HB1 as [|b B1 Hb _ IH]; simpl.
  - destruct B2 as [|b [|b' B2]]; simpl in *; try lia.
    + reflexivity.
    + now rewrite !app_nil_r.
  - rewrite IH. symmetry. now apply batch_sampler_app.
Qed.

Lemma map_nth_seq_self {X : Type} (l : list X) (d : X) :
  map (fun i => nth i l d) (seq 0 (length l)) = l.
Proof.
  induction l as [|x l IH]; [reflexivity|].
  simpl. rewrite <- seq_shift, map_map. simpl. now rewrite IH.
Qed.

(** Reading a list through a permutation of its positions. *)
Lemma perm_map_nth {X : Type} (l : list X) (d : X) (p : list nat) :
  Permutation p (seq 0 (length l)) ->
  Permutation (map (fun i => nth i l d) p) l.
Proof.
  intro Hp. rewrite (Permutation_map _ Hp). now rewrite map_nth_seq_self.
Qed.

Lemma Forall2_Permutation_concat {X : Type} (E F : list (list X)) :
  Forall2 (@Permutation X) E F -> Permutation (concat E) (concat F).
Proof.
  induction 1; simpl; [reflexivity|]. now apply Permutation_app.
Qed.

Lemma Forall2_map_r {X Y Z : Type} (R : X -> Z -> Prop) (f : Y -> Z)
  (E : list X) (B : list Y) :
  Forall2 (fun e b => R e (f b)) E B -> Forall2 R E (map f B).
Proof.
  induction 1; simpl; constructor; assumption.
Qed.

Lemma Forall2_map_l {X Y : Type} (R : Y -> X -> Prop) (f : X -> Y)
  (B : list X) :
  (forall b, R (f b) b) -> Forall2 R (map f B) B.
Proof.
  intro Hf. induction B; simpl; constructor; auto.
Qed.

(** ** One iteration of [BucketBatchSampler] *)

Section Bucket_iteration.

Variables A K : Type.
Variable ltb : K -> K -> bool.
Variable S : Type.
Variable randperm : S -> nat -> list nat * S.
(** [torch.randperm(n)] is a permutation of [0 .. n-1]. *)
Hypothesis randperm_perm :
  forall r n, Permutation (fst (randperm r n)) (seq 0 n).

Lemma bucket_order_perm (s : BucketBatchSampler A K) (b : list nat) :
  Permutation (bucket_order ltb s b) b.
Proof.
  unfold bucket_order. apply perm_map_nth.
  rewrite sorted_indexes_perm, length_map. reflexivity.
Qed.

Lemma bucket_batches_eq (s : BucketBatchSampler A K) (b : list nat) :
  bucket_batches ltb s b =
  batch_sampler (bb_batch_size s) (bb_drop_last s) (bucket_order ltb s b).
Proof.
  unfold bucket_batches, bucket_chunks, bucket_order, batch_sampler.
  now rewrite batch_aux_map.
Qed.

(** Each bucket emits its natural batches in the order of a permutation. *)
Lemma iter_buckets_perm (s : BucketBatchSampler A K) (r : S)
  (B : list (list nat)) :
  Forall2 (fun e b => Permutation e (bucket_batches ltb s b))
    (fst (iter_buckets ltb randperm s r B)) B.
Proof.
  revert r; induction B as [|b B IH]; intro r; simpl; [constructor|].
  unfold subset_random_sampler.
  destruct (randperm r (length (bucket_chunks ltb s b))) as [p r1] eqn:Ep.
  destruct (iter_buckets ltb randperm s r1 B) as [later r2] eqn:Ei.
  simpl. constructor.
  - unfold bucket_batches. apply Permutation_map.
    apply perm_map_nth. pose proof (randperm_perm r (length (bucket_chunks ltb s b))) as H.
    rewrite Ep in H. exact H.
  - specialize (IH r1). rewrite Ei in IH. exact IH.
Qed.

Lemma outer_sampler_perm (s : BucketBatchSampler A K) (r : S) :
  Permutation (fst (outer_sampler randperm s r)) (seq 0 (ds_len (bb_dataset s))).
Proof.
  unfold outer_sampler. destruct (bb_shuffle s); [apply randperm_perm|reflexivity].
Qed.

(** The grouped output: bucket by bucket, a permutation of the bucket's
    natural batches. *)
Lemma bb_iter_grouped_perm (s : BucketBatchSampler A K) (r : S) :
  Forall2 (@Permutation (list nat))
    (fst (bb_iter_grouped ltb randperm s r))
    (map (bucket_batches ltb s)
       (batch_sampler (bb_bucket_size s) false (fst (outer_sampler randperm s r)))).
Proof.
  unfold bb_iter_grouped.
  destruct (outer_sampler randperm s r) as [P r1]. simpl.
  apply Forall2_map_r, iter_buckets_perm.
Qed.

(** The whole output is, up to the order of batches, the batching of a
    permutation [Q] of [0 .. N-1]. *)
Lemma bb_iter_perm (s : BucketBatchSampler A K) (r : S) :
  0 < bb_batch_size s -> 0 < bb_bucket_size s ->
  (bb_bucket_size s mod bb_batch_size s = 0 \/
   ds_len (bb_dataset s) <= bb_bucket_size s) ->
  exists Q, Permutation Q (seq 0 (ds_len (bb_dataset s))) /\
    Permutation (fst (bb_iter ltb randperm s r))
      (batch_sampler (bb_batch_size s) (bb_drop_last s) Q).
Proof.
  intros Hbs Hbsz Hcase.
  pose proof (bb_iter_grouped_perm s r) as Hg.
  pose proof (outer_sampler_perm s r) as HP.
  unfold bb_iter. destruct (bb_iter_grouped ltb randperm s r) as [g r2].
  simpl in Hg |- *.
  set (P := fst (outer_sampler randperm s r)) in *.
  destruct (buckets_split (bb_batch_size s) (bb_bucket_size s) P Hbs Hbsz)
    as (B1 & B2 & HB & HB1 & HB2).
  { rewrite (Permutation_length HP), length_seq. exact Hcase. }
  rewrite HB in Hg.
  exists (concat (map (bucket_order ltb s) (B1 ++ B2))). split.
  - rewrite <- HP.
    replace P with (concat (batch_sampler (bb_bucket_size s) false P))
      by (apply (batch_sampler_facts _ Hbsz false P); reflexivity).
    rewrite HB. apply Forall2_Permutation_concat.
    apply Forall2_map_l. apply bucket_order_perm.
  - rewrite (Forall2_Permutation_concat _ _ Hg).
    replace (map (bucket_batches ltb s) (B1 ++ B2)) with
      (map (batch_sampler (bb_batch_size s) (bb_drop_last s))
         (map (bucket_order ltb s) B1 ++ map (bucket_order ltb s) B2))
      by (rewrite <- map_app, map_map; apply map_ext; intro b;
          symmetry; apply bucket_batches_eq).
    rewrite concat_map_batch_sampler, map_app; [reflexivity|exact Hbs| |].
    + apply Forall_map. eapply Forall_impl; [|exact HB1].
      intros b Hb. now rewrite (Permutation_length (bucket_order_perm s b)).
    + rewrite length_map. exact HB2.
Qed.

End Bucket_iteration.

(** ** Floats *)

Section Floats.
Local Open Scope Z_scope.

Lemma rne_div_bounds (a b : Z) : 0 < b -> a / b <= rne_div a b <= a / b + 1.
Proof.
  intro Hb. unfold rne_div.
  destruct (2 * (a mod b) ?= b); [destruct (Z.even (a / b))|..]; lia.
Qed.

Lemma rne_div_exact (a b : Z) : 0 < b -> a mod b = 0 -> rne_div a b = a / b.
Proof.
  intros Hb Hm. unfold rne_div. rewrite Hm.
  replace (2 * 0 ?= b) with Lt by (symmetry; apply Z.compare_lt_iff; lia).
  reflexivity.
Qed.

Lemma rne_div_up (a b : Z) : b < 2 * (a mod b) -> rne_div a b = a / b + 1.
Proof.
  intro H. unfold rne_div.
  replace (2 * (a mod b) ?= b) with Gt by (symmetry; apply Z.compare_gt_iff; lia).
  reflexivity.
Qed.

Lemma flog2q_spec (n d : Z) : 0 < n -> 0 < d ->
  0 <= flog2q n d + (Z.log2 d + 1) /\
  d * 2 ^ (flog2q n d + (Z.log2 d + 1)) <= n * 2 ^ (Z.log2 d + 1) <
  2 * (d * 2 ^ (flog2q n d + (Z.log2 d + 1))).
Proof.
  intros Hn Hd. unfold flog2q.
  set (k := Z.log2 d + 1).
  assert (Hk : d < 2 ^ k) by (destruct (Z.log2_spec d Hd); unfold k; lia).
  assert (Hk0 : 0 < 2 ^ k) by lia.
  set (Y := n * 2 ^ k / d).
  assert (HY : 1 <= Y).
  { apply Z.div_le_lower_bound; [lia|]. nia. }
  replace (Z.log2 Y - k + k) with (Z.log2 Y) by ring.
  destruct (Z.log2_spec Y) as [H1 H2]; [lia|].
  rewrite Z.pow_succ_r in H2 by (apply Z.log2_nonneg).
  pose proof (Z.mul_div_le (n * 2 ^ k) d Hd).
  pose proof (Z.mul_succ_div_gt (n * 2 ^ k) d Hd).

  split; [apply Z.log2_nonneg|]. split; nia.
Qed.

Lemma pow2_53 : 2 ^ 53 = 2 * 2 ^ 52.
Proof. reflexivity. Qed.

(** [math.ceil(n / d)] on ints through the float quotient is the integer
    ceiling when [n < 2^53] and [d < 2^1022]. *)
Lemma float_div_ceil (n d : Z) : 0 <= n < 2 ^ 53 -> 0 < d < 2 ^ 1022 ->
  math_ceil (round_ratio n d) = Ok ((n + d - 1) / d).
Proof.
  intros Hn Hd.
  destruct (Z.eq_dec n 0) as [->|Hn0].
  { replace ((0 + d - 1) / d) with 0 by (symmetry; apply Z.div_small; lia).
    reflexivity. }
  unfold round_ratio.
  replace (n =? 0) with false by (symmetry; apply Z.eqb_neq; exact Hn0).
  replace (n <? 0) with false by (symmetry; apply Z.ltb_ge; lia).
  rewrite Z.abs_eq by lia.
  destruct (flog2q_spec n d) as (HL0 & HL1 & HL2); [lia|lia|].
  pose proof (Z.log2_nonneg d) as Hlg.
  set (k := Z.log2 d + 1) in *.
  unfold round_pos. set (t := flog2q n d) in *.
  assert (Hk0 : 0 < 2 ^ k) by (apply Z.pow_pos_nonneg; lia).
  assert (Htk0 : 0 < 2 ^ (t + k)) by (apply Z.pow_pos_nonneg; lia).
  assert (Hthi : t <= 52).
  { destruct (Z.le_gt_cases t 52) as [|Ht]; [assumption|exfalso].
    assert (Hp : 2 ^ 53 * 2 ^ k <= 2 ^ (t + k))
      by (rewrite <- Z.pow_add_r by lia; apply Z.pow_le_mono_r; lia).
    assert (n * 2 ^ k < 2 ^ 53 * 2 ^ k) by (apply Z.mul_lt_mono_pos_r; lia).
    nia. }
  assert (Htlo : -1022 <= t).
  { destruct (Z.le_gt_cases (-1022) t) as [|Ht]; [assumption|exfalso].
    assert (E : 2 ^ k = 2 ^ (t + k) * 2 ^ (- t))
      by (rewrite <- Z.pow_add_r by lia; f_equal; ring).
    assert (2 ^ 1023 <= 2 ^ (- t)) by (apply Z.pow_le_mono_r; lia).
    assert (2 ^ (- t) < 2 * d).
    { apply (Z.mul_lt_mono_pos_l (2 ^ (t + k))); [lia|]. nia. }
    assert (2 ^ 1023 = 2 * 2 ^ 1022) by reflexivity.
    lia. }
  rewrite Z.max_l by lia.
  assert (H1024 : 2 ^ 53 < 2 ^ 1024) by (apply Z.pow_lt_mono_r; lia).
  destruct (Z.eq_dec t 52) as [Ht|Ht].
  - rewrite Ht in *. replace (52 - 52) with 0 by reflexivity.
    assert (Hd1 : d = 1).
    { rewrite Z.pow_add_r in HL1 by lia.
      assert (d * 2 ^ 52 <= n) by nia.
      pose proof pow2_53. nia. }
    subst d.
    change (0 <=? 0) with true. change (1 * 2 ^ 0) with 1. cbv beta iota zeta.
    rewrite rne_div_exact, Z.div_1_r by (try rewrite Z.mod_1_r; lia).
    change (2 ^ 0) with 1. rewrite Z.mul_1_r.
    replace (2 ^ 1024 <=? n) with false by (symmetry; apply Z.leb_gt; lia).
    cbn [andb]. unfold math_ceil. change (0 <=? 0) with true. cbv beta iota.
    f_equal. rewrite Z.div_1_r. change (2 ^ 0) with 1. lia.
  - set (f := 52 - t).
    replace (t - 52) with (- f) by (unfold f; ring).
    assert (Hf : 1 <= f) by (unfold f; lia).
    replace (0 <=? - f) with false by (symmetry; apply Z.leb_gt; lia).
    rewrite Z.opp_involutive. cbv beta iota zeta. cbn [andb].
    unfold math_ceil.
    replace (0 <=? - f) with false by (symmetry; apply Z.leb_gt; lia).
    rewrite Z.opp_involutive. f_equal.
    set (P := 2 ^ f).
    assert (HP : 2 <= P).
    { unfold P. replace 2 with (2 ^ 1) at 1 by reflexivity.
      apply Z.pow_le_mono_r; lia. }
    assert (Hkey : d * 2 ^ 52 <= n * P).
    { assert (E : 2 ^ (t + k) * P = 2 ^ 52 * 2 ^ k)
        by (unfold P; rewrite <- !Z.pow_add_r by lia; f_equal; unfold f; ring).
      apply (Z.mul_le_mono_pos_r _ _ (2 ^ k)); [lia|]. nia. }
    assert (HdP : d < 2 * P) by (pose proof pow2_53; nia).
    set (q := n / d). set (r := n mod d).
    assert (Hn_eq : n = d * q + r) by (apply Z.div_mod; lia).
    assert (Hr : 0 <= r < d) by (apply Z.mod_pos_bound; lia).
    set (u := r * P / d). set (v := r * P mod d).
    assert (Hrp : r * P = d * u + v) by (apply Z.div_mod; lia).
    assert (Hv : 0 <= v < d) by (apply Z.mod_pos_bound; lia).
    assert (Hdiv : n * P / d = q * P + u).
    { symmetry. apply (Z.div_unique _ _ _ v); [lia|]. nia. }
    assert (Hmod : n * P mod d = v).
    { symmetry. apply (Z.mod_unique _ _ (q * P + u)); [lia|]. nia. }
    destruct (Z.eq_dec r 0) as [Hr0|Hr0].
    + assert (Hu : u = 0 /\ v = 0).
      { rewrite Hr0, Z.mul_0_l in Hrp. clear - Hrp Hv.
        assert (u = 0) by (destruct (Z.lt_trichotomy u 0) as [H|[H|H]]; nia).
        lia. }
      rewrite rne_div_exact by lia. rewrite Hdiv.
      transitivity q.
      * symmetry. apply (Z.div_unique _ _ _ (P - 1)); lia.
      * apply (Z.div_unique _ _ _ (d - 1)); lia.
    + assert (Hm : q * P + 1 <= rne_div (n * P) d <= q * P + P).
      { pose proof (rne_div_bounds (n * P) d ltac:(lia)) as Hb.
        rewrite Hdiv in Hb.
        assert (u < P) by (clear - Hrp Hr Hv HP; nia).
        assert (0 <= u) by (apply Z.div_pos; lia).
        destruct (Z.eq_dec u 0) as [Hu0|Hu0]; [|lia].
        rewrite rne_div_up, Hdiv; [lia|]. rewrite Hmod.
        clear - Hrp Hu0 Hr Hr0 HdP HP. nia. }
      transitivity (q + 1).
      * symmetry. apply (Z.div_unique _ _ _ (rne_div (n * P) d - q * P - 1)); lia.
      * apply (Z.div_unique _ _ _ (r - 1)); lia.
Qed.

(** [float(z)] for [z > 0] overflows exactly from [2^1024 - 2^970], the
    first int that rounds to [2^1024]. *)
Lemma int_to_float_overflow (z : Z) : 0 < z ->
  (int_to_float z = Error OverflowError <-> 2 ^ 1024 - 2 ^ 970 <= z).
Proof.
  intro Hz. unfold int_to_float, round_ratio.
  replace (z =? 0) with false by (symmetry; apply Z.eqb_neq; lia).
  replace (z <? 0) with false by (symmetry; apply Z.ltb_ge; lia).
  rewrite Z.abs_eq by lia.
  unfold round_pos.
  assert (Hfl : flog2q z 1 = Z.log2 z).
  { unfold flog2q. change (Z.log2 1 + 1) with 1. rewrite Z.div_1_r.
    rewrite Z.log2_mul_pow2 by lia. ring. }
  rewrite Hfl. set (L := Z.log2 z).
  destruct (Z.log2_spec z Hz) as [HL1 HL2]. fold L in HL1, HL2.
  assert (HL0 : 0 <= L) by apply Z.log2_nonneg.
  rewrite Z.max_l by lia.
  assert (HT52 : 2 ^ 53 < 2 ^ 1024 - 2 ^ 970) by lia.
  destruct (Z.ltb_spec (L - 52) 0) as [Hs|Hs].
  - replace (0 <=? L - 52) with false by (symmetry; apply Z.leb_gt; lia).
    cbv beta iota zeta. cbn [andb].
    split; [discriminate|intro H; exfalso].
    assert (2 ^ Z.succ L <= 2 ^ 52) by (apply Z.pow_le_mono_r; lia).
    lia.
  - set (e := L - 52).
    replace (0 <=? e) with true by (symmetry; apply Z.leb_le; lia).
    cbv beta iota zeta. cbn [andb].
    rewrite Z.mul_1_l. set (P := 2 ^ e).
    assert (HP : 0 < P) by (apply Z.pow_pos_nonneg; lia).
    assert (HLe : 2 ^ L = 2 ^ 52 * P)
      by (unfold P, e; rewrite <- Z.pow_add_r by lia; f_equal; ring).
    assert (HLs : 2 ^ Z.succ L = 2 ^ 53 * P)
      by (unfold P, e; rewrite <- Z.pow_add_r by lia; f_equal; ring).
    set (q := z / P). set (r := z mod P).
    assert (Hz_eq : z = P * q + r) by (apply Z.div_mod; lia).
    assert (Hr : 0 <= r < P) by (apply Z.mod_pos_bound; lia).
    assert (Hq : 2 ^ 52 <= q < 2 ^ 53).
    { split.
      - apply Z.div_le_lower_bound; lia.
      - apply Z.div_lt_upper_bound; lia. }
    set (m := rne_div z P).
    assert (Hm : q <= m <= q + 1) by (apply rne_div_bounds; lia).
    assert (Hiff : 2 ^ 1024 <= m * P <-> 2 ^ 1024 - 2 ^ 970 <= z).
    { destruct (Z.lt_trichotomy L 1023) as [HLlt|[HLeq|HLgt]].
      - assert (HPle : P <= 2 ^ 970) by (unfold P, e; apply Z.pow_le_mono_r; lia).
        assert (m * P <= 2 ^ 53 * 2 ^ 970) by (apply Z.mul_le_mono_nonneg; lia).
        assert (2 ^ 53 * P <= 2 ^ 53 * 2 ^ 970)
          by (apply Z.mul_le_mono_nonneg_l; lia).
        lia.
      - assert (HPv : P = 2 * 2 ^ 970) by (unfold P, e; rewrite HLeq; reflexivity).
        destruct (Z.eq_dec q (2 ^ 53 - 1)) as [Hq1|Hq1].
        + assert (Hm1 : m = if 2 ^ 970 <=? r then q + 1 else q).
          { unfold m, rne_div. fold q r.
            destruct (Z.compare_spec (2 * r) P) as [Hc|Hc|Hc].
            - replace (Z.even q) with false by (rewrite Hq1; reflexivity).
              replace (2 ^ 970 <=? r) with true by (symmetry; apply Z.leb_le; lia).
              reflexivity.
            - replace (2 ^ 970 <=? r) with false by (symmetry; apply Z.leb_gt; lia).
              reflexivity.
            - replace (2 ^ 970 <=? r) with true by (symmetry; apply Z.leb_le; lia).
              reflexivity. }
          rewrite Hm1, HPv. rewrite HPv in Hz_eq. rewrite Hq1 in Hz_eq |- *.
          destruct (Z.leb_spec (2 ^ 970) r); lia.
        + rewrite HPv in *. lia.
      - assert (HPge : 2 ^ 972 <= P) by (unfold P, e; apply Z.pow_le_mono_r; lia).
        assert (2 ^ 52 * 2 ^ 972 <= m * P) by (apply Z.mul_le_mono_nonneg; lia).
        assert (2 ^ 52 * 2 ^ 972 <= 2 ^ 52 * P)
          by (apply Z.mul_le_mono_nonneg_l; lia).
        lia. }
    destruct (Z.leb_spec (2 ^ 1024) (m * P)) as [Ho|Ho].
    + split; [intros _; apply Hiff; exact Ho|reflexivity].
    + split; [discriminate|]. intro H. apply Hiff in H. lia.
Qed.

End Floats.

(** ** Construction *)

Lemma py_lt_int (a b : Z) : py_lt (PyInt a) (PyInt b) = (a <? b)%Z.
Proof.
  unfold py_lt, py_num, ext_lt, Qcompare. simpl. now rewrite !Z.mul_1_r.
Qed.

Lemma py_mul_int_true (a : Z) : py_mul (PyInt a) (PyBool true) = Ok (PyInt (a * 1)).
Proof. reflexivity. Qed.

Lemma py_mul_int_false (a : Z) : py_mul (PyInt a) (PyBool false) = Ok (PyInt (a * 0)).
Proof. reflexivity. Qed.

Lemma py_mul_int_int (a b : Z) : py_mul (PyInt a) (PyInt b) = Ok (PyInt (a * b)).
Proof. reflexivity. Qed.

(** [int * float] converts the int first. *)
Lemma py_mul_int_float (a : Z) (f : pyfloat) :
  py_mul (PyInt a) (PyFloat f) =
  match int_to_float a with
  | Error e => Error e
  | Ok x => Ok (PyFloat (float_mul x f))
  end.
Proof. unfold py_mul. cbn [py_to_float]. destruct (int_to_float a); reflexivity. Qed.

(** [float(z)] fails only with [OverflowError]. *)
Lemma int_to_float_error (z : Z) (e : exn) :
  int_to_float z = Error e -> e = OverflowError.
Proof.
  unfold int_to_float. destruct (round_ratio z 1); congruence.
Qed.

(** What a successful construction guarantees. *)
Lemma make_BucketBatchSampler_inv {A K : Type} (ds : Dataset A)
  (bsv mv : pyval) (dl sh : bool) (key : A -> K) (s : BucketBatchSampler A K) :
  make_BucketBatchSampler ds bsv dl sh key mv = Ok s ->
  bb_dataset s = ds /\ bb_drop_last s = dl /\ bb_shuffle s = sh /\
  bb_sort_key s = key /\
  bsv = PyInt (Z.of_nat (bb_batch_size s)) /\ 0 < bb_batch_size s /\
  0 < bb_bucket_size s /\ 0 < ds_len ds /\
  ((bb_bucket_size s mod bb_batch_size s = 0 /\
    bb_bucket_size s <= ds_len ds) \/ bb_bucket_size s = ds_len ds).
Proof.
  unfold make_BucketBatchSampler.
  destruct (sh && (ds_len ds =? 0)); [discriminate|].
  destruct bsv as [b|z|q]; cbn [check_batch_size]; try discriminate.
  destruct (0 <? z)%Z eqn:Ez; [|discriminate]. apply Z.ltb_lt in Ez.
  destruct (py_mul (PyInt z) mv) as [p|e] eqn:Hp; [|discriminate].
  unfold py_min.
  destruct (py_lt (PyInt (Z.of_nat (ds_len ds))) p) eqn:Elt.
  - cbn [check_batch_size].
    destruct (0 <? Z.of_nat (ds_len ds))%Z eqn:EN; [|discriminate].
    apply Z.ltb_lt in EN.
    intro H; inversion H; subst; simpl.
    repeat split; auto; try (f_equal; lia); try lia.
  - destruct p as [pb|w|pf]; cbn [check_batch_size]; try discriminate.
    destruct (0 <? w)%Z eqn:Ew; [|discriminate]. apply Z.ltb_lt in Ew.
    rewrite py_lt_int in Elt. apply Z.ltb_ge in Elt.
    assert (Hw : exists m, w = (z * m)%Z /\ (0 < m)%Z).
    { destruct mv as [[|]|m|f].
      - rewrite py_mul_int_true in Hp. injection Hp as <-. exists 1%Z. lia.
      - rewrite py_mul_int_false in Hp. injection Hp as <-. lia.
      - rewrite py_mul_int_int in Hp. injection Hp as <-. exists m. split; [reflexivity|nia].
      - rewrite py_mul_int_float in Hp. destruct (int_to_float z); discriminate. }
    destruct Hw as (m & -> & Hm).
    intro H; inversion H; subst; simpl.
    rewrite Z2Nat.inj_mul, Nat.mul_comm, Nat.Div0.mod_mul by lia.
    repeat split; auto; try (f_equal; lia); try lia;
      try (left; split; [reflexivity|nia]).
Qed.

(** Over an empty dataset the construction always fails: with [ValueError],
    except for [OverflowError] from [float(batch_size)] when a float
    multiplier meets a positive int [batch_size] and [shuffle=False]. *)
Lemma make_BucketBatchSampler_empty {A K : Type} (ds : Dataset A)
  (bsv mv : pyval) (dl sh : bool) (key : A -> K) :
  ds_len ds = 0 ->
  make_BucketBatchSampler ds bsv dl sh key mv =
  if sh then Error ValueError else
  match bsv, mv with
  | PyInt b, PyFloat _ =>
      if (0 <? b)%Z then
        match int_to_float b with
        | Error e => Error e
        | Ok _ => Error ValueError
        end
      else Error ValueError
  | _, _ => Error ValueError
  end.
Proof.
  intro H0. unfold make_BucketBatchSampler. rewrite H0.
  destruct sh; [reflexivity|]. cbn [andb].
  destruct bsv as [bb|b|f]; cbn [check_batch_size]; try (destruct mv; reflexivity).
  destruct (0 <? b)%Z eqn:Eb; [|destruct mv; reflexivity].
  apply Z.ltb_lt in Eb.
  destruct mv as [[|]|m|f].
  - rewrite py_mul_int_true. unfold py_min. rewrite py_lt_int.
    replace (Z.of_nat 0 <? b * 1)%Z with true by (symmetry; apply Z.ltb_lt; lia).
    reflexivity.
  - rewrite py_mul_int_false. unfold py_min. rewrite py_lt_int.
    replace (Z.of_nat 0 <? b * 0)%Z with false by (symmetry; apply Z.ltb_ge; lia).
    cbn [check_batch_size]. replace (0 <? b * 0)%Z with false by (symmetry; apply Z.ltb_ge; lia).
    reflexivity.
  - rewrite py_mul_int_int. unfold py_min. rewrite py_lt_int.
    destruct (Z.of_nat 0 <? b * m)%Z eqn:E; [reflexivity|].
    apply Z.ltb_ge in E. cbn [check_batch_size].
    replace (0 <? b * m)%Z with false by (symmetry; apply Z.ltb_ge; lia).
    reflexivity.
  - rewrite py_mul_int_float. destruct (int_to_float b) as [x|e]; [|reflexivity].
    unfold py_min. destruct (py_lt _ _); reflexivity.
Qed.

(** With int arguments, construction succeeds exactly when [batch_size],
    [bucket_size_multiplier] and [len(dataset)] are positive, and keeps
    [batch_size] and [min(batch_size * bucket_size_multiplier, N)]. *)
Lemma make_BucketBatchSampler_int {A K : Type} (ds : Dataset A) (b m : Z)
  (dl sh : bool) (key : A -> K) :
  make_BucketBatchSampler ds (PyInt b) dl sh key (PyInt m) =
  if ((0 <? b) && (0 <? m) && (0 <? Z.of_nat (ds_len ds)))%Z
  then Ok (mkBBS ds (Z.to_nat b) dl sh key
             (Z.to_nat (if (Z.of_nat (ds_len ds) <? b * m)%Z
                        then Z.of_nat (ds_len ds) else b * m)))
  else Error ValueError.
Proof.
  unfold make_BucketBatchSampler, py_min.
  rewrite py_mul_int_int, py_lt_int.
  destruct (ds_len ds =? 0) eqn:HN;
    [apply Nat.eqb_eq in HN | apply Nat.eqb_neq in HN];
    rewrite ?andb_true_r, ?andb_false_r.
  - rewrite HN. simpl Z.of_nat.
    destruct sh; cbn [check_batch_size];
    repeat match goal with
           | |- context [(?x <? ?y)%Z] =>
               let E := fresh "E" in
               destruct (x <? y)%Z eqn:E;
                 [apply Z.ltb_lt in E | apply Z.ltb_ge in E];
                 cbn [check_batch_size andb]
           end; try reflexivity; lia.
  - cbn [check_batch_size].
    repeat match goal with
           | |- context [(?x <? ?y)%Z] =>
               let E := fresh "E" in
               destruct (x <? y)%Z eqn:E;
                 [apply Z.ltb_lt in E | apply Z.ltb_ge in E];
                 cbn [check_batch_size andb]
           end; try reflexivity; lia.
Qed.

(** With a positive int [batch_size] and a float multiplier, the
    construction computes the float product [float(batch_size) * q] and
    succeeds exactly when [N > 0] and [N] is below it; the bucket is then
    the whole dataset. *)
Lemma make_BucketBatchSampler_float_eq {A K : Type} (ds : Dataset A) (b : Z)
  (f : pyfloat) (dl sh : bool) (key : A -> K) :
  (0 < b)%Z ->
  make_BucketBatchSampler ds (PyInt b) dl sh key (PyFloat f) =
  if sh && (ds_len ds =? 0) then Error ValueError else
  match int_to_float b with
  | Error e => Error e
  | Ok x =>
      if (0 <? ds_len ds) &&
         py_lt (PyInt (Z.of_nat (ds_len ds))) (PyFloat (float_mul x f))
      then Ok (mkBBS ds (Z.to_nat b) dl sh key (ds_len ds))
      else Error ValueError
  end.
Proof.
  intro Hb. unfold make_BucketBatchSampler.
  destruct (sh && (ds_len ds =? 0)); [reflexivity|].
  cbn [check_batch_size].
  replace (0 <? b)%Z with true by (symmetry; apply Z.ltb_lt; exact Hb).
  rewrite py_mul_int_float. destruct (int_to_float b) as [x|e]; [|reflexivity].
  unfold py_min.
  destruct (py_lt (PyInt (Z.of_nat (ds_len ds))) (PyFloat (float_mul x f)));
    rewrite ?andb_true_r, ?andb_false_r; cbn [check_batch_size];
    [|reflexivity].
  rewrite Nat2Z.id. destruct (ds_len ds); reflexivity.
Qed.

(** A float [bucket_size_multiplier] is kept only when it yields the whole
    dataset as the single bucket. *)
Lemma make_BucketBatchSampler_float {A K : Type} (ds : Dataset A) (b : Z)
  (f : pyfloat) (dl sh : bool) (key : A -> K) (s : BucketBatchSampler A K) :
  make_BucketBatchSampler ds (PyInt b) dl sh key (PyFloat f) = Ok s ->
  bb_bucket_size s = ds_len ds.
Proof.
  destruct (Z.ltb_spec 0 b) as [Hb|Hb].
  - rewrite (make_BucketBatchSampler_float_eq ds b f dl sh key Hb).
    destruct (sh && (ds_len ds =? 0)); [discriminate|].
    destruct (int_to_float b); [|discriminate].
    destruct (_ && _); [|discriminate].
    intro H; inversion H; reflexivity.
  - unfold make_BucketBatchSampler. destruct (sh && _); [discriminate|].
    cbn [check_batch_size].
    replace (0 <? b)%Z with false by (symmetry; apply Z.ltb_ge; exact Hb).
    discriminate.
Qed.

Lemma Permutation_concat_lists {X : Type} (L L' : list (list X)) :
  Permutation L L' -> Permutation (concat L) (concat L').
Proof.
  induction 1; simpl.
  - reflexivity.
  - now apply Permutation_app_head.
  - rewrite !app_assoc. apply Permutation_app_tail, Permutation_app_comm.
  - etransitivity; eassumption.
Qed.

Lemma Permutation_filter_lists {X : Type} (f : X -> bool) (l l' : list X) :
  Permutation l l' -> Permutation (filter f l) (filter f l').
Proof.
  induction 1; simpl.
  - reflexivity.
  - destruct (f x); [now apply perm_skip|assumption].
  - destruct (f x), (f y); try apply perm_swap; try apply perm_skip; reflexivity.
  - etransitivity; eassumption.
Qed.

Lemma Forall2_Permutation_trans {X : Type} (E F G : list (list X)) :
  Forall2 (@Permutation X) E G -> Forall2 (@Permutation X) F G ->
  Forall2 (@Permutation X) E F.
Proof.
  intro H; revert F. induction H as [|e g E G Heg _ IH]; intros F HF.
  - inversion HF; constructor.
  - inversion HF as [|f ? F' ? Hfg HF']; subst.
    constructor; [rewrite Heg, Hfg; reflexivity|now apply IH].
Qed.

Lemma rot_randperm_perm (r n : nat) :
  Permutation (fst (rot_randperm r n)) (seq 0 n).
Proof.
  unfold rot_randperm; simpl.
  rewrite Permutation_app_comm. now rewrite firstn_skipn.
Qed.

Lemma Sorted_all_related {X : Type} (R : X -> X -> Prop) (l : list X) :
  (forall a b, In a l -> In b l -> R a b) -> Sorted R l.
Proof.
  induction l as [|x l IH]; intro H; constructor.
  - apply IH. intros a b Ha Hb. apply H; right; assumption.
  - destruct l as [|y l]; constructor. apply H; [left|right; left]; reflexivity.
Qed.

Lemma sorted_indexes_sorted_seq {K A : Type} (ltb : K -> K -> bool)
  (key : A -> K) (data : list A) :
  Sorted (fun a b => ltb b a = false) (map key data) ->
  sorted_indexes ltb key data = seq 0 (length data).
Proof.
  intro Hs. unfold sorted_indexes.
  rewrite sort_by_key_enumerate_sorted by exact Hs.
  now rewrite map_fst_enumerate, length_map.
Qed.

(** Under a key whose values all compare equal, the sorted view of a bucket
    is the bucket itself. *)
Lemma bucket_order_all_equal {A K : Type} (ltb : K -> K -> bool)
  (s : BucketBatchSampler A K) (b : list nat) :
  (forall x y, ltb (bb_sort_key s x) (bb_sort_key s y) = false) ->
  bucket_order ltb s b = b.
Proof.
  intro Heq. unfold bucket_order.
  rewrite sorted_indexes_sorted_seq, length_map.
  - apply map_nth_seq_self.
  - apply Sorted_all_related. intros u v Hu Hv.
    apply in_map_iff in Hu as (x & <- & _).
    apply in_map_iff in Hv as (y & <- & _).
    apply Heq.
Qed.

Ltac bbs_inv H :=
  destruct (make_BucketBatchSampler_inv _ _ _ _ _ _ _ H)
    as (Hds & Hdl & Hsh & Hkey & Hbsv & Hbs & Hbsz & HN & Hcase).

(** The facts of a constructed sampler that the iteration needs. *)
Lemma make_iter_perm {A K : Type} (ltb : K -> K -> bool) {S : Type}
  (randperm : S -> nat -> list nat * S)
  (Hperm : forall r n, Permutation (fst (randperm r n)) (seq 0 n))
  (ds : Dataset A) (b : Z) (mv : pyval) (dl sh : bool) (key : A -> K)
  (s : BucketBatchSampler A K) (r : S) :
  make_BucketBatchSampler ds (PyInt b) dl sh key mv = Ok s ->
  0 < Z.to_nat b /\ 0 < ds_len ds /\
  exists Q, Permutation Q (seq 0 (ds_len ds)) /\
    Permutation (fst (bb_iter ltb randperm s r))
      (batch_sampler (Z.to_nat b) dl Q).
Proof.
  intro Hmk. bbs_inv Hmk.
  inversion Hbsv as [Hb]. subst b. rewrite Nat2Z.id.
  destruct (bb_iter_perm A K ltb S randperm Hperm s r Hbs Hbsz)
    as (Q & HQ & Hout).
  { destruct Hcase as [[Hm _]|He]; [left; exact Hm|right; rewrite Hds; lia]. }
  rewrite Hds in HQ. rewrite Hdl in Hout.
  repeat split; try assumption. exists Q. split; assumption.
Qed.

(** * Claims *)

(** The 10-item dataset of the spec's scenario, lengths used as items. *)
Definition scenario_lengths : list nat := [1; 5; 2; 8; 3; 7; 4; 6; 9; 0].

(** ** C1 *)

(** C1: for every dataset, every int [batch_size] and every
    [bucket_size_multiplier] accepted by the constructor, one full iteration
    with [drop_last=False] emits every index of [0 .. N-1] exactly once
    (the concatenated batches are a permutation of [0 .. N-1]); with
    [drop_last=True] every index is emitted at most once, only indices of
    [0 .. N-1] are emitted, and fewer than [batch_size] are left out. *)
Theorem bucket_sampler_indices_once {A K : Type} (ltb : K -> K -> bool)
  {S : Type} (randperm : S -> nat -> list nat * S)
  (Hperm : forall r n, Permutation (fst (randperm r n)) (seq 0 n))
  (ds : Dataset A) (b : Z) (mv : pyval) (dl sh : bool) (key : A -> K)
  (s : BucketBatchSampler A K) (r : S) :
  make_BucketBatchSampler ds (PyInt b) dl sh key mv = Ok s ->
  (dl = false ->
   Permutation (concat (fst (bb_iter ltb randperm s r))) (seq 0 (ds_len ds))) /\
  (dl = true ->
   NoDup (concat (fst (bb_iter ltb randperm s r))) /\
   incl (concat (fst (bb_iter ltb randperm s r))) (seq 0 (ds_len ds)) /\
   ds_len ds - length (concat (fst (bb_iter ltb randperm s r))) < Z.to_nat b).
Proof.
  intro Hmk.
  destruct (make_iter_perm ltb randperm Hperm ds b mv dl sh key s r Hmk)
    as (Hbs & _ & Q & HQ & Hout).
  destruct (batch_sampler_facts (Z.to_nat b) Hbs dl Q)
    as (_ & _ & _ & _ & F5 & F6).
  apply Permutation_concat_lists in Hout.
  split; intro Hdl; subst dl.
  - rewrite Hout, F5 by reflexivity. exact HQ.
  - destruct (F6 eq_refl) as (drop & Hc & Hdrop).
    assert (HnQ : NoDup Q)
      by (eapply Permutation_NoDup; [symmetry; exact HQ|apply seq_NoDup]).
    assert (HlQ : length Q = ds_len ds)
      by (now rewrite (Permutation_length HQ), length_seq).
    repeat split.
    + eapply Permutation_NoDup; [symmetry; exact Hout|].
      rewrite <- Hc in HnQ. eapply NoDup_app_remove_r; exact HnQ.
    + intros x Hx. eapply Permutation_in; [exact HQ|].
      rewrite <- Hc. apply in_or_app. left.
      eapply Permutation_in; [exact Hout|exact Hx].
    + rewrite (Permutation_length Hout).
      assert (Hl : length Q = length (concat (batch_sampler (Z.to_nat b) true Q))
                              + length drop)
        by (rewrite <- Hc at 1; apply length_app).
      pose proof (Nat.mod_upper_bound (length Q) (Z.to_nat b) ltac:(lia)).
      lia.
Qed.

Lemma bucket_sampler_indices_once_witness :
  exists s, make_BucketBatchSampler (nat_dataset scenario_lengths) (PyInt 3)
              false true identity (PyInt 2) = Ok s /\
  (false = false ->
   Permutation (concat (fst (bb_iter Nat.ltb rot_randperm s 0)))
     (seq 0 (ds_len (nat_dataset scenario_lengths)))) /\
  (false = true ->
   NoDup (concat (fst (bb_iter Nat.ltb rot_randperm s 0))) /\
   incl (concat (fst (bb_iter Nat.ltb rot_randperm s 0)))
     (seq 0 (ds_len (nat_dataset scenario_lengths))) /\
   ds_len (nat_dataset scenario_lengths)
     - length (concat (fst (bb_iter Nat.ltb rot_randperm s 0))) < Z.to_nat 3).
Proof.
  exists (mkBBS (nat_dataset scenario_lengths) 3 false true identity 6).
  split; [reflexivity|].
  apply (bucket_sampler_indices_once Nat.ltb rot_randperm rot_randperm_perm
           (nat_dataset scenario_lengths) 3 (PyInt 2) false true identity).
  reflexivity.
Defined.

(** ** C2 *)

(** The dataset of the length counterexample: [2^53 + 1] items. *)
Definition big_dataset : Dataset nat := mkDataset (Z.to_nat (2 ^ 53 + 1)) (fun i => i).




(** ** C9 *)

(** C9: every batch of one full iteration is non-empty and holds at most
    [batch_size] indices, all of them exactly [batch_size] with
    [drop_last]; at most one batch is smaller than [batch_size]; and the
    buckets are split so that every bucket but the last has a length that
    is a multiple of [batch_size]. *)
Theorem bucket_sampler_batch_sizes {A K : Type} (ltb : K -> K -> bool)
  {S : Type} (randperm : S -> nat -> list nat * S)
  (Hperm : forall r n, Permutation (fst (randperm r n)) (seq 0 n))
  (ds : Dataset A) (b : Z) (mv : pyval) (dl sh : bool) (key : A -> K)
  (s : BucketBatchSampler A K) (r : S) :
  make_BucketBatchSampler ds (PyInt b) dl sh key mv = Ok s ->
  Forall (fun x => 0 < length x <= Z.to_nat b) (fst (bb_iter ltb randperm s r)) /\
  (dl = true ->
   Forall (fun x => length x = Z.to_nat b) (fst (bb_iter ltb randperm s r))) /\
  length (filter (fun x => length x <? Z.to_nat b)
            (fst (bb_iter ltb randperm s r))) <= 1 /\
  exists B1 B2,
    batch_sampler (bb_bucket_size s) false (fst (outer_sampler randperm s r))
      = B1 ++ B2 /\
    Forall (fun x => length x mod Z.to_nat b = 0) B1 /\ length B2 <= 1.
Proof.
  intro Hmk.
  destruct (make_iter_perm ltb randperm Hperm ds b mv dl sh key s r Hmk)
    as (Hpos & HN0 & Q & HQ & Hout).
  destruct (batch_sampler_facts (Z.to_nat b) Hpos dl Q)
    as (F1 & F2 & F3 & _ & _ & _).
  repeat split.
  - eapply Permutation_Forall; [symmetry; exact Hout|exact F1].
  - intro Hdl. eapply Permutation_Forall; [symmetry; exact Hout|exact (F2 Hdl)].
  - rewrite (Permutation_length (Permutation_filter_lists _ _ _ Hout)). exact F3.
  - bbs_inv Hmk. inversion Hbsv as [Hb]. subst b. rewrite Nat2Z.id.
    apply buckets_split; try assumption.
    rewrite (Permutation_length (outer_sampler_perm A K S randperm Hperm s r)),
      length_seq, Hds.
    destruct Hcase as [[Hm _]|He]; [left; exact Hm|right; lia].
Qed.

Lemma bucket_sampler_batch_sizes_witness :
  exists s, make_BucketBatchSampler (nat_dataset scenario_lengths) (PyInt 3)
              true true identity (PyInt 2) = Ok s /\
  Forall (fun x => 0 < length x <= Z.to_nat 3) (fst (bb_iter Nat.ltb rot_randperm s 1)) /\
  (true = true ->
   Forall (fun x => length x = Z.to_nat 3) (fst (bb_iter Nat.ltb rot_randperm s 1))) /\
  length (filter (fun x => length x <? Z.to_nat 3)
            (fst (bb_iter Nat.ltb rot_randperm s 1))) <= 1 /\
  exists B1 B2,
    batch_sampler (bb_bucket_size s) false (fst (outer_sampler rot_randperm s 1))
      = B1 ++ B2 /\
    Forall (fun x => length x mod Z.to_nat 3 = 0) B1 /\ length B2 <= 1.
Proof.
  exists (mkBBS (nat_dataset scenario_lengths) 3 true true identity 6).
  split; [reflexivity|].
  apply (bucket_sampler_batch_sizes Nat.ltb rot_randperm rot_randperm_perm
           (nat_dataset scenario_lengths) 3 (PyInt 2) true true identity).
  reflexivity.
Defined.

(** ** C3 *)

(** C3 (counterexample): with [shuffle=False], an identity key over items
    already in order, [batch_size=1] and one bucket, the natural batches
    are [[0], [1]] but [SubsetRandomSampler] may emit them as
    [[1], [0]] (here [torch.randperm(2)] returns [[1, 0]]). *)
Lemma bucket_sampler_noshuffle_order_cex :
  exists s, make_BucketBatchSampler (nat_dataset [0; 1]) (PyInt 1) false false
              identity (PyInt 100) = Ok s /\
    map (bucket_batches Nat.ltb s)
      (batch_sampler (bb_bucket_size s) false (seq 0 2)) = [[[0]; [1]]] /\
    fst (bb_iter Nat.ltb rot_randperm s 1) = [[1]; [0]].
Proof.
  exists (mkBBS (nat_dataset [0; 1]) 1 false false identity 2).
  repeat split; reflexivity.
Qed.

(** C3 (amended): with [shuffle=False] the buckets are the consecutive
    slices of [0 .. N-1], in order, and each bucket emits the consecutive
    [batch_size]-chunks of its sorted view in an order given by a random
    permutation; when all keys compare equal, those chunks are the
    consecutive chunks of the bucket itself. *)
Theorem bucket_sampler_noshuffle_buckets {A K : Type} (ltb : K -> K -> bool)
  {S : Type} (randperm : S -> nat -> list nat * S)
  (Hperm : forall r n, Permutation (fst (randperm r n)) (seq 0 n))
  (ds : Dataset A) (b : Z) (mv : pyval) (dl : bool) (key : A -> K)
  (s : BucketBatchSampler A K) (r : S) :
  make_BucketBatchSampler ds (PyInt b) dl false key mv = Ok s ->
  Forall2 (@Permutation (list nat)) (fst (bb_iter_grouped ltb randperm s r))
    (map (bucket_batches ltb s)
       (batch_sampler (bb_bucket_size s) false (seq 0 (ds_len ds)))) /\
  ((forall x y, ltb (key x) (key y) = false) ->
   map (bucket_batches ltb s)
     (batch_sampler (bb_bucket_size s) false (seq 0 (ds_len ds))) =
   map (batch_sampler (Z.to_nat b) dl)
     (batch_sampler (bb_bucket_size s) false (seq 0 (ds_len ds)))).
Proof.
  intro Hmk. bbs_inv Hmk. inversion Hbsv as [Hb]. subst b. rewrite Nat2Z.id.
  split.
  - pose proof (bb_iter_grouped_perm A K ltb S randperm Hperm s r) as H.
    unfold outer_sampler in H. rewrite Hsh, Hds in H. exact H.
  - intro Heq. apply map_ext. intro bucket.
    rewrite bucket_batches_eq, Hdl, bucket_order_all_equal; [reflexivity|].
    rewrite Hkey. exact Heq.
Qed.

Lemma bucket_sampler_noshuffle_buckets_witness :
  exists s, make_BucketBatchSampler (nat_dataset scenario_lengths) (PyInt 3)
              false false (fun _ => 0) (PyInt 2) = Ok s /\
  Forall2 (@Permutation (list nat)) (fst (bb_iter_grouped Nat.ltb rot_randperm s 1))
    (map (bucket_batches Nat.ltb s)
       (batch_sampler (bb_bucket_size s) false (seq 0 10))) /\
  ((forall x y : nat, Nat.ltb ((fun _ => 0) x) ((fun _ => 0) y) = false) ->
   map (bucket_batches Nat.ltb s)
     (batch_sampler (bb_bucket_size s) false (seq 0 10)) =
   map (batch_sampler (Z.to_nat 3) false)
     (batch_sampler (bb_bucket_size s) false (seq 0 10))).
Proof.
  exists (mkBBS (nat_dataset scenario_lengths) 3 false false (fun _ => 0) 6).
  split; [reflexivity|].
  apply (bucket_sampler_noshuffle_buckets Nat.ltb rot_randperm rot_randperm_perm
           (nat_dataset scenario_lengths) 3 (PyInt 2) false (fun _ => 0)).
  reflexivity.
Defined.

(** ** C4 *)

(** C4 (counterexample): with [shuffle=False], two successive full
    iterations of the same sampler (the second starting from the random
    state the first one left) emit different sequences. *)
Lemma bucket_sampler_noshuffle_repeat_cex :
  exists s, make_BucketBatchSampler (nat_dataset [0; 1]) (PyInt 1) false false
              identity (PyInt 100) = Ok s /\
    bb_iter Nat.ltb rot_randperm s 0 = ([[0]; [1]], 1) /\
    fst (bb_iter Nat.ltb rot_randperm s 1) = [[1]; [0]].
Proof.
  exists (mkBBS (nat_dataset [0; 1]) 1 false false identity 2).
  repeat split; reflexivity.
Qed.

(** C4 (amended): with [shuffle=False], any two full iterations, from any
    two random states, emit the same buckets in the same order and, bucket
    by bucket, the same batches with the same contents; only the order of
    the batches inside a bucket may differ. *)
Theorem bucket_sampler_noshuffle_same_batches {A K : Type}
  (ltb : K -> K -> bool) {S : Type} (randperm : S -> nat -> list nat * S)
  (Hperm : forall r n, Permutation (fst (randperm r n)) (seq 0 n))
  (ds : Dataset A) (bsv mv : pyval) (dl : bool) (key : A -> K)
  (s : BucketBatchSampler A K) (r1 r2 : S) :
  make_BucketBatchSampler ds bsv dl false key mv = Ok s ->
  Forall2 (@Permutation (list nat))
    (fst (bb_iter_grouped ltb randperm s r1))
    (fst (bb_iter_grouped ltb randperm s r2)).
Proof.
  intro Hmk. bbs_inv Hmk.
  pose proof (bb_iter_grouped_perm A K ltb S randperm Hperm s r1) as H1.
  pose proof (bb_iter_grouped_perm A K ltb S randperm Hperm s r2) as H2.
  unfold outer_sampler in H1, H2. rewrite Hsh in H1, H2.
  eapply Forall2_Permutation_trans; eassumption.
Qed.

Lemma bucket_sampler_noshuffle_same_batches_witness :
  exists s, make_BucketBatchSampler (nat_dataset scenario_lengths) (PyInt 3)
              false false identity (PyInt 2) = Ok s /\
  Forall2 (@Permutation (list nat))
    (fst (bb_iter_grouped Nat.ltb rot_randperm s 0))
    (fst (bb_iter_grouped Nat.ltb rot_randperm s 1)).
Proof.
  exists (mkBBS (nat_dataset scenario_lengths) 3 false false identity 6).
  split; [reflexivity|].
  apply (bucket_sampler_noshuffle_same_batches Nat.ltb rot_randperm
           rot_randperm_perm (nat_dataset scenario_lengths) (PyInt 3) (PyInt 2)
           false identity).
  reflexivity.
Defined.

(** ** C5 *)

(** C5 (counterexample): over an empty dataset the construction raises
    [ValueError], with the default multiplier and [shuffle=False]. *)
Lemma bucket_sampler_empty_cex :
  make_BucketBatchSampler (nat_dataset []) (PyInt 3) false false
    (@identity nat) (PyInt 100) = Error ValueError.
Proof. reflexivity. Qed.

(** C5 (amended): constructing over an empty dataset always raises
    before any iteration: [ValueError], except for [OverflowError] when
    [shuffle=False], [batch_size] is an int of at least [2^1024 - 2^970]
    (too large for [float]) and the multiplier is a float. *)
Theorem bucket_sampler_empty_raises {A K : Type} (ds : Dataset A)
  (bsv mv : pyval) (dl sh : bool) (key : A -> K) :
  ds_len ds = 0 ->
  (make_BucketBatchSampler ds bsv dl sh key mv = Error ValueError \/
   make_BucketBatchSampler ds bsv dl sh key mv = Error OverflowError) /\
  (make_BucketBatchSampler ds bsv dl sh key mv = Error OverflowError <->
   sh = false /\
   exists (b : Z) (f : pyfloat),
     bsv = PyInt b /\ mv = PyFloat f /\ (2 ^ 1024 - 2 ^ 970 <= b)%Z).
Proof.
  intro H0. rewrite make_BucketBatchSampler_empty by exact H0.
  destruct sh.
  { split; [left; reflexivity|]. split; [discriminate|]. intros [H _]; discriminate. }
  destruct bsv as [bb|b|bf]; destruct mv as [mb|m|f];
    try (split; [left; reflexivity|];
         split; [discriminate|];
         intros [_ (b' & f' & E1 & E2 & _)]; discriminate).
  destruct (Z.ltb_spec 0 b) as [Hb|Hb].
  - destruct (int_to_float b) as [x|e] eqn:Ei.
    + split; [left; reflexivity|]. split; [discriminate|].
      intros [_ (b' & f' & E1 & E2 & Hge)]. injection E1 as <-.
      apply (int_to_float_overflow b Hb) in Hge. congruence.
    + pose proof (int_to_float_error _ _ Ei) as He. subst e.
      split; [right; reflexivity|]. split; [|reflexivity].
      intros _. split; [reflexivity|]. exists b, f.
      split; [reflexivity|]. split; [reflexivity|].
      apply (int_to_float_overflow b Hb). exact Ei.
  - split; [left; reflexivity|]. split; [discriminate|].
    intros [_ (b' & f' & E1 & E2 & Hge)]. injection E1 as <-. lia.
Qed.

Lemma bucket_sampler_empty_raises_witness :
  ds_len (nat_dataset []) = 0 /\
  ((make_BucketBatchSampler (nat_dataset []) (PyInt 3) false true
      (@identity nat) (PyInt 100) = Error ValueError \/
    make_BucketBatchSampler (nat_dataset []) (PyInt 3) false true
      (@identity nat) (PyInt 100) = Error OverflowError) /\
   (make_BucketBatchSampler (nat_dataset []) (PyInt 3) false true
      (@identity nat) (PyInt 100) = Error OverflowError <->
    true = false /\
    exists (b : Z) (f : pyfloat),
      PyInt 3 = PyInt b /\ PyInt 100 = PyFloat f /\ (2 ^ 1024 - 2 ^ 970 <= b)%Z)).
Proof.
  split; [reflexivity|].
  apply bucket_sampler_empty_raises. reflexivity.
Defined.

(** ** C6 *)

(** The float [0.33333333333333337], the double next above [1/3]. *)
Definition third_up : pyfloat := FFinite 3002399751580331 (-53).

(** C6 (counterexample): the float multiplier [1.5] with [batch_size=2]
    over two items is accepted, with a bucket of 2; and the float product
    is rounded: [3 * 0.33333333333333337] is [1.0], so one item is
    rejected although the exact product exceeds 1. *)
Lemma bucket_sampler_float_multiplier_cex :
  (exists s, make_BucketBatchSampler (nat_dataset [3; 1]) (PyInt 2) false false
               identity (PyFloat (FFinite 3 (-1))) = Ok s /\
             bb_bucket_size s = 2) /\
  make_BucketBatchSampler (nat_dataset [7]) (PyInt 3) false false
    identity (PyFloat third_up) = Error ValueError /\
  (1 < 3 * fval 3002399751580331 (-53))%Q.
Proof.
  split; [|split].
  - exists (mkBBS (nat_dataset [3; 1]) 2 false false identity 2).
    split; vm_compute; reflexivity.
  - vm_compute. reflexivity.
  - vm_compute. reflexivity.
Qed.

(** C6 (amended): the constructor raises [ValueError] at construction,
    before any batch, when [batch_size] is not a positive int (a bool or a
    float included), whatever the multiplier; with an int multiplier, when
    that is not positive or the dataset is empty, a successful construction
    keeping [batch_size] and [min(batch_size * multiplier, N)]. A float
    multiplier [q] is not validated: the product is computed as Python does,
    [float(batch_size) * q] rounded to a double, [float(batch_size)] raising
    [OverflowError] from [2^1024 - 2^970] on; the construction then succeeds,
    with the whole dataset as the single bucket, exactly when [N > 0] and
    [N] is below the product, and raises [ValueError] otherwise. *)
Theorem bucket_sampler_config_checks {A K : Type} (ds : Dataset A)
  (dl sh : bool) (key : A -> K) :
  (forall bsv mv, (forall z, bsv = PyInt z -> (z <= 0)%Z) ->
     make_BucketBatchSampler ds bsv dl sh key mv = Error ValueError) /\
  (forall b m : Z, (m <= 0)%Z ->
     make_BucketBatchSampler ds (PyInt b) dl sh key (PyInt m) = Error ValueError) /\
  (forall b m : Z,
     make_BucketBatchSampler ds (PyInt b) dl sh key (PyInt m) =
     if ((0 <? b) && (0 <? m) && (0 <? Z.of_nat (ds_len ds)))%Z
     then Ok (mkBBS ds (Z.to_nat b) dl sh key
                (Z.to_nat (if (Z.of_nat (ds_len ds) <? b * m)%Z
                           then Z.of_nat (ds_len ds) else b * m)))
     else Error ValueError) /\
  (forall (b : Z) (f : pyfloat), (0 < b)%Z ->
     make_BucketBatchSampler ds (PyInt b) dl sh key (PyFloat f) =
     if sh && (ds_len ds =? 0) then Error ValueError else
     match int_to_float b with
     | Error e => Error e
     | Ok x =>
         if (0 <? ds_len ds) &&
            py_lt (PyInt (Z.of_nat (ds_len ds))) (PyFloat (float_mul x f))
         then Ok (mkBBS ds (Z.to_nat b) dl sh key (ds_len ds))
         else Error ValueError
     end) /\
  (forall z : Z, (0 < z)%Z ->
     (int_to_float z = Error OverflowError <-> (2 ^ 1024 - 2 ^ 970 <= z)%Z)).
Proof.
  split; [|split; [|split; [|split]]].
  - intros bsv mv Hnot. unfold make_BucketBatchSampler.
    destruct (sh && (ds_len ds =? 0)); [reflexivity|].
    destruct bsv as [b|z|q]; try reflexivity.
    cbn [check_batch_size].
    replace (0 <? z)%Z with false
      by (symmetry; apply Z.ltb_ge; exact (Hnot z eq_refl)).
    reflexivity.
  - intros b m Hle. rewrite make_BucketBatchSampler_int.
    replace (0 <? m)%Z with false by (symmetry; apply Z.ltb_ge; exact Hle).
    rewrite andb_false_r. reflexivity.
  - intros b m. apply make_BucketBatchSampler_int.
  - intros b f Hb. apply make_BucketBatchSampler_float_eq. exact Hb.
  - exact int_to_float_overflow.
Qed.

(** ** C7 *)

(** C7: under a strict weak order on keys, the positions yielded by
    [SortedSampler] are in ascending key order, positions with equal keys
    in their original order; the result depends only on the keys of the
    collection. *)
Theorem sorted_sampler_stable {K : Type} (ltb : K -> K -> bool)
  (ltb_asym : forall a b, ltb a b = true -> ltb b a = false)
  (ltb_cotrans : forall a b c, ltb a c = true -> ltb a b = true \/ ltb b c = true)
  {A : Type} (key : A -> K) (data : list A) :
  (forall i j a b xa xb, i < j ->
     nth_error (ss_iter (make_SortedSampler ltb data key)) i = Some a ->
     nth_error (ss_iter (make_SortedSampler ltb data key)) j = Some b ->
     nth_error data a = Some xa -> nth_error data b = Some xb ->
     ltb (key xb) (key xa) = false /\ (ltb (key xa) (key xb) = false -> a < b)) /\
  (forall data', map key data' = map key data ->
     ss_iter (make_SortedSampler ltb data' key) =
     ss_iter (make_SortedSampler ltb data key)).
Proof.
  split.
  - intros i j a b xa xb. apply sorted_indexes_order; assumption.
  - intros data' Hk. simpl. unfold sorted_indexes. now rewrite Hk.
Qed.

Lemma sorted_sampler_stable_witness :
  (forall i j a b xa xb, i < j ->
     nth_error (ss_iter (make_SortedSampler Nat.ltb [2; 0; 2; 1] identity)) i = Some a ->
     nth_error (ss_iter (make_SortedSampler Nat.ltb [2; 0; 2; 1] identity)) j = Some b ->
     nth_error [2; 0; 2; 1] a = Some xa -> nth_error [2; 0; 2; 1] b = Some xb ->
     Nat.ltb (identity xb) (identity xa) = false /\
     (Nat.ltb (identity xa) (identity xb) = false -> a < b)) /\
  (forall data', map identity data' = map identity [2; 0; 2; 1] ->
     ss_iter (make_SortedSampler Nat.ltb data' identity) =
     ss_iter (make_SortedSampler Nat.ltb [2; 0; 2; 1] identity)).
Proof.
  apply (sorted_sampler_stable Nat.ltb).
  - intros a b H. apply Nat.ltb_lt in H. apply Nat.ltb_ge. lia.
  - intros a b c H. apply Nat.ltb_lt in H.
    destruct (Nat.ltb a b) eqn:E; [left; reflexivity|right].
    apply Nat.ltb_ge in E. apply Nat.ltb_lt. lia.
Defined.

(** ** C8 *)

(** C8 (counterexample): with the default key [identity],
    [SortedSampler([1, 0])] yields [[1, 0]], not [[0, 1]]. *)
Lemma sorted_sampler_default_reorders_cex :
  ss_iter (make_SortedSampler Nat.ltb [1; 0] identity) = [1; 0] /\
  ss_iter (make_SortedSampler Nat.ltb [1; 0] identity) <> seq 0 2.
Proof.
  split; [reflexivity|]. simpl. discriminate.
Qed.

(** C8 (amended): the default key [identity] sorts the positions by the
    items themselves; the result is [0 .. n-1] exactly when the items are
    already in non-decreasing order. *)
Theorem sorted_sampler_default_key {K : Type} (ltb : K -> K -> bool)
  (ltb_asym : forall a b, ltb a b = true -> ltb b a = false)
  (ltb_cotrans : forall a b c, ltb a c = true -> ltb a b = true \/ ltb b c = true)
  (data : list K) :
  ss_iter (make_SortedSampler ltb data identity) = seq 0 (length data) <->
  Sorted (fun a b => ltb b a = false) data.
Proof.
  simpl. rewrite sorted_indexes_seq_iff by assumption.
  replace (map identity data) with data; [reflexivity|].
  unfold identity. symmetry. apply map_id.
Qed.

Lemma sorted_sampler_default_key_witness :
  ss_iter (make_SortedSampler Nat.ltb [0; 1; 1; 3] identity) = seq 0 4 <->
  Sorted (fun a b => Nat.ltb b a = false) [0; 1; 1; 3].
Proof.
  apply (sorted_sampler_default_key Nat.ltb).
  - intros a b H. apply Nat.ltb_lt in H. apply Nat.ltb_ge. lia.
  - intros a b c H. apply Nat.ltb_lt in H.
    destruct (Nat.ltb a b) eqn:E; [left; reflexivity|right].
    apply Nat.ltb_ge in E. apply Nat.ltb_lt. lia.
Defined.

(** ** C10 *)

(** C10: [SortedSampler] yields a permutation of [0 .. n-1], reports the
    length [n], and every iteration returns the list computed once at
    construction. *)
Theorem sorted_sampler_permutation {K : Type} (ltb : K -> K -> bool)
  {A : Type} (key : A -> K) (data : list A) :
  Permutation (ss_iter (make_SortedSampler ltb data key)) (seq 0 (length data)) /\
  ss_len (make_SortedSampler ltb data key) = length data /\
  ss_iter (make_SortedSampler ltb data key) =
  ss_sorted_indexes (make_SortedSampler ltb data key).
Proof.
  repeat split. apply sorted_indexes_perm.
Qed.

(** * Further properties *)

(** ** Helpers *)

(** Every batch of [BatchSampler] is a contiguous slice of its input. *)
Lemma batch_aux_infix (bs : nat) (dl : bool) (cur l c : list nat) :
  In c (batch_aux bs dl cur l) -> exists pre post, cur ++ l = pre ++ c ++ post.
Proof.
  revert cur; induction l as [|x l IH]; intros cur Hin; simpl in Hin.
  - destruct ((0 <? length cur) && negb dl); [|contradiction].
    destruct Hin as [<-|[]]. exists [], []. simpl. now rewrite !app_nil_r.
  - destruct (length (cur ++ [x]) =? bs).
    + destruct Hin as [<-|Hin].
      * exists [], l. simpl. now rewrite <- app_assoc.
      * destruct (IH [] Hin) as (pre & post & E). simpl in E.
        exists (cur ++ [x] ++ pre), post. rewrite E, <- !app_assoc. reflexivity.
    + destruct (IH (cur ++ [x]) Hin) as (pre & post & E).
      exists pre, post. rewrite <- E, <- app_assoc. reflexivity.
Qed.

Lemma batch_sampler_infix (bs : nat) (dl : bool) (l c : list nat) :
  In c (batch_sampler bs dl l) -> exists pre post, l = pre ++ c ++ post.
Proof. exact (batch_aux_infix bs dl [] l c). Qed.

(** ... and it starts at a multiple of [batch_size]. *)
Lemma batch_sampler_aligned (bs : nat) (dl : bool) (l c : list nat) :
  0 < bs -> In c (batch_sampler bs dl l) ->
  exists pre post, l = pre ++ c ++ post /\ length pre mod bs = 0 /\
    length c <= bs.
Proof.
  intros Hbs Hin.
  destruct (batch_sampler_shape bs Hbs dl l)
    as (full & rest & Hb & Hf & Hc & _ & Hr).
  rewrite Hb in Hin. apply in_app_or in Hin as [Hin|Hin].
  - apply in_split in Hin as (F1 & F2 & ->).
    apply Forall_app in Hf as [Hf1 Hf2].
    apply Forall_cons_iff in Hf2 as [Hcl _].
    exists (concat F1), (concat F2 ++ rest). repeat split.
    + rewrite <- Hc, concat_app. simpl. now rewrite <- !app_assoc.
    + rewrite (length_concat_full bs Hbs F1 Hf1), Nat.mul_comm,
        Nat.Div0.mod_mul. reflexivity.
    + lia.
  - destruct ((0 <? length rest) && negb dl); [|contradiction].
    destruct Hin as [<-|[]].
    exists (concat full), []. repeat split.
    + now rewrite app_nil_r.
    + rewrite (length_concat_full bs Hbs full Hf), Nat.mul_comm,
        Nat.Div0.mod_mul. reflexivity.
    + rewrite Hr. apply Nat.lt_le_incl, Nat.mod_upper_bound. lia.
Qed.

Lemma seq_prefix (s n : nat) (c post : list nat) :
  seq s n = c ++ post -> c = seq s (length c).
Proof.
  revert s n; induction c as [|x c IH]; intros s n E; [reflexivity|].
  destruct n as [|n]; simpl in E; [discriminate|].
  injection E as -> E'. simpl. f_equal. eapply IH; exact E'.
Qed.

(** A contiguous slice of [s .. s+n-1] is a range. *)
Lemma seq_infix (s n : nat) (pre c post : list nat) :
  seq s n = pre ++ c ++ post -> c = seq (s + length pre) (length c).
Proof.
  revert s n; induction pre as [|y pre IH]; intros s n E.
  - rewrite Nat.add_0_r. eapply seq_prefix; exact E.
  - destruct n as [|n]; simpl in E; [discriminate|].
    injection E as -> E'. simpl.
    replace (y + S (length pre)) with (S y + length pre) by lia.
    eapply IH; exact E'.
Qed.

Lemma nth_error_infix {X : Type} (pre c post : list X) (i : nat) :
  i < length c -> nth_error (pre ++ c ++ post) (length pre + i) = nth_error c i.
Proof.
  intro H. rewrite nth_error_app2 by lia.
  replace (length pre + i - length pre) with i by lia.
  apply nth_error_app1; exact H.
Qed.

Lemma bb_iter_fst {A K : Type} (ltb : K -> K -> bool) {S : Type}
  (randperm : S -> nat -> list nat * S) (s : BucketBatchSampler A K) (r : S) :
  fst (bb_iter ltb randperm s r) = concat (fst (bb_iter_grouped ltb randperm s r)).
Proof.
  unfold bb_iter. destruct (bb_iter_grouped ltb randperm s r); reflexivity.
Qed.

(** Where an emitted batch comes from: a bucket of the outer sampler and
    one of the bucket's [batch_size]-chunks ([SubsetRandomSampler] reads
    [indices[i]] for the drawn [i]; the empty case only arises for an [i]
    out of range). *)
Lemma iter_buckets_batch {A K : Type} (ltb : K -> K -> bool) {S : Type}
  (randperm : S -> nat -> list nat * S) (s : BucketBatchSampler A K) (r : S)
  (B : list (list nat)) (batch : list nat) :
  In batch (concat (fst (iter_buckets ltb randperm s r B))) ->
  exists bucket c, In bucket B /\
    (c = [] \/ In c (bucket_chunks ltb s bucket)) /\
    batch = map (fun i => nth i bucket 0) c.
Proof.
  revert r; induction B as [|b B IH]; intros r Hin; simpl in Hin; [contradiction|].
  unfold subset_random_sampler in Hin.
  destruct (randperm r (length (bucket_chunks ltb s b))) as [p r1].
  destruct (iter_buckets ltb randperm s r1 B) as [later r2] eqn:Ei.
  simpl in Hin. apply in_app_or in Hin as [Hin|Hin].
  - apply in_map_iff in Hin as (c & <- & Hc).
    apply in_map_iff in Hc as (i & <- & _).
    exists b, (nth i (bucket_chunks ltb s b) []).
    split; [left; reflexivity|split; [|reflexivity]].
    destruct (nth_in_or_default i (bucket_chunks ltb s b) []) as [H|H];
      [right; exact H|left; exact H].
  - specialize (IH r1). rewrite Ei in IH.
    destruct (IH Hin) as (bucket & c & Hb & Hc & E).
    exists bucket, c. split; [right; exact Hb|split; assumption].
Qed.

Lemma bb_iter_batch {A K : Type} (ltb : K -> K -> bool) {S : Type}
  (randperm : S -> nat -> list nat * S) (s : BucketBatchSampler A K) (r : S)
  (batch : list nat) :
  In batch (fst (bb_iter ltb randperm s r)) ->
  exists bucket c,
    In bucket (batch_sampler (bb_bucket_size s) false
                 (fst (outer_sampler randperm s r))) /\
    (c = [] \/ In c (bucket_chunks ltb s bucket)) /\
    batch = map (fun i => nth i bucket 0) c.
Proof.
  rewrite bb_iter_fst. unfold bb_iter_grouped.
  destruct (outer_sampler randperm s r) as [P r1]. simpl.
  apply iter_buckets_batch.
Qed.

(** The positions in a chunk of a bucket are positions of the bucket. *)
Lemma bucket_chunk_range {A K : Type} (ltb : K -> K -> bool)
  (s : BucketBatchSampler A K) (bucket c : list nat) (p : nat) :
  In c (bucket_chunks ltb s bucket) -> In p c -> p < length bucket.
Proof.
  intros Hc Hp. unfold bucket_chunks in Hc.
  apply batch_sampler_infix in Hc as (pre & post & E).
  assert (Hin : In p (sorted_indexes ltb (bb_sort_key s)
                        (map (ds_get (bb_dataset s)) bucket))).
  { rewrite E. apply in_or_app. right. apply in_or_app. left. exact Hp. }
  eapply Permutation_in in Hin; [|apply sorted_indexes_perm].
  apply in_seq in Hin. rewrite length_map in Hin. lia.
Qed.

Lemma bucket_batch_incl {A K : Type} (ltb : K -> K -> bool)
  (s : BucketBatchSampler A K) (bucket c : list nat) :
  (c = [] \/ In c (bucket_chunks ltb s bucket)) ->
  incl (map (fun i => nth i bucket 0) c) bucket.
Proof.
  intros [->|Hc] x Hx; [contradiction|].
  apply in_map_iff in Hx as (p & <- & Hp).
  apply nth_In. eapply bucket_chunk_range; eassumption.
Qed.

(** Inside a chunk of a bucket the items are in ascending key order. *)
Lemma bucket_chunk_sorted {A K : Type} (ltb : K -> K -> bool)
  (ltb_asym : forall a b, ltb a b = true -> ltb b a = false)
  (ltb_cotrans : forall a b c, ltb a c = true -> ltb a b = true \/ ltb b c = true)
  (s : BucketBatchSampler A K) (bucket c : list nat) (i j a b : nat) :
  In c (bucket_chunks ltb s bucket) -> i < j ->
  nth_error c i = Some a -> nth_error c j = Some b ->
  ltb (bb_sort_key s (ds_get (bb_dataset s) (nth b bucket 0)))
      (bb_sort_key s (ds_get (bb_dataset s) (nth a bucket 0))) = false.
Proof.
  intros Hc Hij Ha Hb.
  assert (Hra : a < length bucket)
    by (eapply bucket_chunk_range; [exact Hc|eapply nth_error_In; exact Ha]).
  assert (Hrb : b < length bucket)
    by (eapply bucket_chunk_range; [exact Hc|eapply nth_error_In; exact Hb]).
  unfold bucket_chunks in Hc.
  apply batch_sampler_infix in Hc as (pre & post & E).
  assert (Hia : i < length c) by (apply nth_error_Some; congruence).
  assert (Hjb : j < length c) by (apply nth_error_Some; congruence).
  refine (proj1 (sorted_indexes_order K ltb ltb_asym ltb_cotrans A
                   (bb_sort_key s) (map (ds_get (bb_dataset s)) bucket)
                   (length pre + i) (length pre + j) a b
                   (ds_get (bb_dataset s) (nth a bucket 0))
                   (ds_get (bb_dataset s) (nth b bucket 0)) _ _ _ _ _)).
  - lia.
  - rewrite E, nth_error_infix by exact Hia. exact Ha.
  - rewrite E, nth_error_infix by exact Hjb. exact Hb.
  - rewrite nth_error_map, (nth_error_nth' bucket 0 Hra). reflexivity.
  - rewrite nth_error_map, (nth_error_nth' bucket 0 Hrb). reflexivity.
Qed.

(** Every emitted batch lists its items in ascending key order. *)
Lemma bb_iter_batch_sorted {A K : Type} (ltb : K -> K -> bool)
  (ltb_asym : forall a b, ltb a b = true -> ltb b a = false)
  (ltb_cotrans : forall a b c, ltb a c = true -> ltb a b = true \/ ltb b c = true)
  {S : Type} (randperm : S -> nat -> list nat * S)
  (s : BucketBatchSampler A K) (r : S) (batch : list nat) (i j a b : nat) :
  In batch (fst (bb_iter ltb randperm s r)) -> i < j ->
  nth_error batch i = Some a -> nth_error batch j = Some b ->
  ltb (bb_sort_key s (ds_get (bb_dataset s) b))
      (bb_sort_key s (ds_get (bb_dataset s) a)) = false.
Proof.
  intros Hin Hij Ha Hb.
  destruct (bb_iter_batch ltb randperm s r batch Hin)
    as (bucket & c & _ & [->|Hc] & ->); [destruct i; discriminate|].
  rewrite nth_error_map in Ha, Hb.
  destruct (nth_error c i) as [a'|] eqn:Ea; [|discriminate].
  destruct (nth_error c j) as [b'|] eqn:Eb; [|discriminate].
  simpl in Ha, Hb. inversion Ha; inversion Hb; subst.
  eapply bucket_chunk_sorted; eassumption.
Qed.

(** With the whole dataset as the only bucket, the batches are the
    [batch_size]-chunks of the sorted view of the dataset. *)
Lemma batch_sampler_whole (n : nat) (dl : bool) (l : list nat) :
  length l = n -> 0 < n -> batch_sampler n dl l = [l].
Proof.
  intros Hl Hn. unfold batch_sampler.
  rewrite <- (app_nil_r l) at 1.
  rewrite (batch_aux_chunk n Hn dl [] l []); [reflexivity| |simpl; lia].
  intros ->. simpl in Hl. lia.
Qed.

Lemma bucket_order_whole {A K : Type} (ltb : K -> K -> bool)
  (s : BucketBatchSampler A K) (n : nat) :
  bucket_order ltb s (seq 0 n) =
  sorted_indexes ltb (bb_sort_key s) (map (ds_get (bb_dataset s)) (seq 0 n)).
Proof.
  unfold bucket_order. rewrite <- map_id. apply map_ext_in.
  intros p Hp. eapply Permutation_in in Hp; [|apply sorted_indexes_perm].
  apply in_seq in Hp. rewrite length_map, length_seq in Hp.
  rewrite seq_nth by lia. reflexivity.
Qed.

(** [<] on [nat] is a strict weak order. *)
Lemma nat_ltb_asym (a b : nat) : Nat.ltb a b = true -> Nat.ltb b a = false.
Proof. intro H. apply Nat.ltb_lt in H. apply Nat.ltb_ge. lia. Qed.

Lemma nat_ltb_cotrans (a b c : nat) :
  Nat.ltb a c = true -> Nat.ltb a b = true \/ Nat.ltb b c = true.
Proof.
  intro H. apply Nat.ltb_lt in H.
  destruct (Nat.ltb a b) eqn:E; [left; reflexivity|right].
  apply Nat.ltb_ge in E. apply Nat.ltb_lt. lia.
Qed.

(** * Properties of the rest of the code *)

(** ** [BucketBatchSampler] *)

(** X1: under a strict weak order on keys, every batch emitted by a
    constructed sampler lists its dataset items in ascending key order. *)
Theorem bucket_sampler_batch_key_order {A K : Type} (ltb : K -> K -> bool)
  (ltb_asym : forall a b, ltb a b = true -> ltb b a = false)
  (ltb_cotrans : forall a b c, ltb a c = true -> ltb a b = true \/ ltb b c = true)
  {S : Type} (randperm : S -> nat -> list nat * S)
  (ds : Dataset A) (bsv mv : pyval) (dl sh : bool) (key : A -> K)
  (s : BucketBatchSampler A K) (r : S) (batch : list nat) (i j a b : nat) :
  make_BucketBatchSampler ds bsv dl sh key mv = Ok s ->
  In batch (fst (bb_iter ltb randperm s r)) -> i < j ->
  nth_error batch i = Some a -> nth_error batch j = Some b ->
  ltb (key (ds_get ds b)) (key (ds_get ds a)) = false.
Proof.
  intros Hmk Hin Hij Ha Hb. bbs_inv Hmk.
  rewrite <- Hds, <- Hkey.
  exact (bb_iter_batch_sorted ltb ltb_asym ltb_cotrans randperm s r batch i j a b
           Hin Hij Ha Hb).
Qed.

Lemma bucket_sampler_batch_key_order_witness :
  Nat.ltb (identity (ds_get (nat_dataset scenario_lengths) 3))
          (identity (ds_get (nat_dataset scenario_lengths) 1)) = false.
Proof.
  apply (bucket_sampler_batch_key_order Nat.ltb nat_ltb_asym nat_ltb_cotrans
           rot_randperm (nat_dataset scenario_lengths) (PyInt 3) (PyInt 2)
           false true identity
           (mkBBS (nat_dataset scenario_lengths) 3 false true identity 6)
           0 [1; 5; 3] 0 2 1 3).
  - reflexivity.
  - vm_compute. left. reflexivity.
  - lia.
  - reflexivity.
  - reflexivity.
Defined.

(** X2: every emitted batch lies inside one bucket, a
    [bucket_size]-chunk of the outer sampler's order; with [shuffle=False]
    that bucket is a window [k * bucket_size .. (k+1) * bucket_size - 1]
    of the dataset indices. *)
Theorem bucket_sampler_batch_in_bucket {A K : Type} (ltb : K -> K -> bool)
  {S : Type} (randperm : S -> nat -> list nat * S)
  (ds : Dataset A) (bsv mv : pyval) (dl sh : bool) (key : A -> K)
  (s : BucketBatchSampler A K) (r : S) (batch : list nat) :
  make_BucketBatchSampler ds bsv dl sh key mv = Ok s ->
  In batch (fst (bb_iter ltb randperm s r)) ->
  exists bucket,
    In bucket (batch_sampler (bb_bucket_size s) false
                 (fst (outer_sampler randperm s r))) /\
    incl batch bucket /\
    (sh = false ->
     exists k, Forall (fun i => k * bb_bucket_size s <= i <
                                k * bb_bucket_size s + bb_bucket_size s) batch).
Proof.
  intros Hmk Hin. bbs_inv Hmk.
  destruct (bb_iter_batch ltb randperm s r batch Hin)
    as (bucket & c & Hb & Hc & ->).
  exists bucket. split; [exact Hb|split; [exact (bucket_batch_incl ltb s bucket c Hc)|]].
  intro Hsh0. unfold outer_sampler in Hb. rewrite Hsh, Hsh0 in Hb. simpl in Hb.
  destruct (batch_sampler_aligned _ false _ bucket Hbsz Hb)
    as (pre & post & E & Hmod & Hlen).
  pose proof (seq_infix 0 _ pre bucket post E) as Hseq. simpl in Hseq.
  exists (length pre / bb_bucket_size s).
  assert (Hk : length pre / bb_bucket_size s * bb_bucket_size s = length pre).
  { pose proof (Nat.div_mod_eq (length pre) (bb_bucket_size s)) as H.
    rewrite Hmod in H. nia. }
  rewrite Hk. apply Forall_forall. intros x Hx.
  apply (bucket_batch_incl ltb s bucket c Hc) in Hx.
  rewrite Hseq in Hx. apply in_seq in Hx. lia.
Qed.

Lemma bucket_sampler_batch_in_bucket_witness :
  let s := mkBBS (nat_dataset scenario_lengths) 3 false false identity 6 in
  exists bucket,
    In bucket (batch_sampler (bb_bucket_size s) false
                 (fst (outer_sampler rot_randperm s 0))) /\
    incl [9; 6; 7] bucket /\
    (false = false ->
     exists k, Forall (fun i => k * bb_bucket_size s <= i <
                                k * bb_bucket_size s + bb_bucket_size s)
                 [9; 6; 7]).
Proof.
  intro s.
  apply (bucket_sampler_batch_in_bucket Nat.ltb rot_randperm
           (nat_dataset scenario_lengths) (PyInt 3) (PyInt 2) false false
           identity s 0 [9; 6; 7]).
  - reflexivity.
  - vm_compute. right. right. right. left. reflexivity.
Defined.

(** X3: with int arguments, [shuffle=False] and
    [batch_size * bucket_size_multiplier >= N], the single bucket is the
    whole dataset, and one iteration emits, in some order, exactly the
    [batch_size]-chunks of [SortedSampler] over all the items. *)
Theorem bucket_sampler_single_bucket {A K : Type} (ltb : K -> K -> bool)
  {S : Type} (randperm : S -> nat -> list nat * S)
  (Hperm : forall r n, Permutation (fst (randperm r n)) (seq 0 n))
  (ds : Dataset A) (b m : Z) (dl : bool) (key : A -> K)
  (s : BucketBatchSampler A K) (r : S) :
  make_BucketBatchSampler ds (PyInt b) dl false key (PyInt m) = Ok s ->
  (Z.of_nat (ds_len ds) <= b * m)%Z ->
  bb_bucket_size s = ds_len ds /\
  Permutation (fst (bb_iter ltb randperm s r))
    (batch_sampler (Z.to_nat b) dl
       (ss_iter (make_SortedSampler ltb (map (ds_get ds) (seq 0 (ds_len ds)))
                   key))).
Proof.
  intros Hmk Hle.
  rewrite make_BucketBatchSampler_int in Hmk.
  destruct ((0 <? b) && (0 <? m) && (0 <? Z.of_nat (ds_len ds)))%Z eqn:Ec;
    [|discriminate].
  apply andb_true_iff in Ec as [_ HN]. apply Z.ltb_lt in HN.
  injection Hmk as <-.
  assert (Hbsz : Z.to_nat (if (Z.of_nat (ds_len ds) <? b * m)%Z
                           then Z.of_nat (ds_len ds) else b * m) = ds_len ds).
  { destruct (Z.of_nat (ds_len ds) <? b * m)%Z eqn:E; [lia|].
    apply Z.ltb_ge in E. lia. }
  split; [exact Hbsz|].
  rewrite Hbsz, bb_iter_fst.
  pose proof (bb_iter_grouped_perm A K ltb S randperm Hperm
                (mkBBS ds (Z.to_nat b) dl false key
                   (Z.to_nat (if (Z.of_nat (ds_len ds) <? b * m)%Z
                              then Z.of_nat (ds_len ds) else b * m))) r) as Hg.
  cbn [bb_bucket_size outer_sampler bb_shuffle bb_dataset fst] in Hg.
  rewrite Hbsz, batch_sampler_whole in Hg by (rewrite ?length_seq; lia).
  apply Forall2_Permutation_concat in Hg. rewrite Hg.
  simpl concat. rewrite app_nil_r, bucket_batches_eq, bucket_order_whole.
  reflexivity.
Qed.

Lemma bucket_sampler_single_bucket_witness :
  bb_bucket_size (mkBBS (nat_dataset scenario_lengths) 3 false false
                    identity 10) = ds_len (nat_dataset scenario_lengths) /\
  Permutation
    (fst (bb_iter Nat.ltb rot_randperm
            (mkBBS (nat_dataset scenario_lengths) 3 false false identity 10) 0))
    (batch_sampler (Z.to_nat 3) false
       (ss_iter (make_SortedSampler Nat.ltb
                   (map (ds_get (nat_dataset scenario_lengths))
                      (seq 0 (ds_len (nat_dataset scenario_lengths))))
                   identity))).
Proof.
  apply (bucket_sampler_single_bucket Nat.ltb rot_randperm rot_randperm_perm
           (nat_dataset scenario_lengths) 3 4 false identity).
  - reflexivity.
  - vm_compute. discriminate.
Defined.

(** ** [SortedSampler] *)

Lemma insert_by_last {K : Type} (ltb : K -> K -> bool) (x : nat * K)
  (l : list (nat * K)) :
  Forall (fun y => ltb (snd y) (snd x) = true) l -> insert_by ltb x l = l ++ [x].
Proof.
  induction 1 as [|y l Hy _ IH]; [reflexivity|]. simpl. now rewrite Hy, IH.
Qed.

Lemma map_snd_enumerate {K : Type} (n : nat) (l : list K) :
  map snd (enumerate n l) = l.
Proof.
  revert n; induction l as [|k l IH]; intro n; simpl; [reflexivity|].
  now rewrite IH.
Qed.

Lemma sort_by_key_decreasing {K : Type} (ltb : K -> K -> bool) (n : nat)
  (l : list K) :
  StronglySorted (fun a b => ltb b a = true) l ->
  map fst (sort_by_key ltb (enumerate n l)) = rev (seq n (length l)).
Proof.
  revert n; induction l as [|k l IH]; intros n Hs; [reflexivity|].
  apply StronglySorted_inv in Hs as [Hs Hk]. simpl.
  rewrite insert_by_last.
  - rewrite map_app, IH by exact Hs. reflexivity.
  - eapply Permutation_Forall; [symmetry; apply sort_by_key_perm|].
    apply Forall_map with (f := snd) (P := fun b => ltb b k = true).
    rewrite map_snd_enumerate. exact Hk.
Qed.

(** X4: when the keys strictly decrease along the collection,
    [SortedSampler] yields the positions in reverse,
    [n-1, n-2, ..., 0] (the docstring's
    [SortedSampler(range(10), sort_key=lambda i: -i)]). *)
Theorem sorted_sampler_decreasing_keys {K A : Type} (ltb : K -> K -> bool)
  (key : A -> K) (data : list A) :
  StronglySorted (fun a b => ltb b a = true) (map key data) ->
  ss_iter (make_SortedSampler ltb data key) = rev (seq 0 (length data)).
Proof.
  intro Hs. simpl. unfold sorted_indexes.
  rewrite sort_by_key_decreasing by exact Hs. now rewrite length_map.
Qed.

Lemma sorted_sampler_decreasing_keys_witness :
  ss_iter (make_SortedSampler Z.ltb (seq 0 10) (fun i => (- Z.of_nat i)%Z)) =
  rev (seq 0 (length (seq 0 10))).
Proof.
  apply sorted_sampler_decreasing_keys.
  simpl. repeat constructor.
Defined.

(** X5: under a strict weak order, reading the collection in the order
    [SortedSampler] yields and sorting that view again gives
    [0, 1, ..., n-1]: the sorted view is already sorted. *)
Theorem sorted_sampler_sorted_view {K A : Type} (ltb : K -> K -> bool)
  (ltb_asym : forall a b, ltb a b = true -> ltb b a = false)
  (ltb_cotrans : forall a b c, ltb a c = true -> ltb a b = true \/ ltb b c = true)
  (key : A -> K) (data : list A) (d : A) :
  ss_iter (make_SortedSampler ltb
             (map (fun i => nth i data d)
                (ss_iter (make_SortedSampler ltb data key))) key) =
  seq 0 (length data).
Proof.
  simpl. set (L := sorted_indexes ltb key data).
  assert (HLp : Permutation L (seq 0 (length data)))
    by apply sorted_indexes_perm.
  assert (HL : length (map (fun i => nth i data d) L) = length data)
    by (now rewrite length_map, (Permutation_length HLp), length_seq).
  rewrite <- HL.
  apply (proj2 (sorted_indexes_seq_iff K ltb ltb_asym ltb_cotrans A key _)).
  apply Sorted_of_adjacent. intros i ka kb Ha Hb.
  rewrite map_map, nth_error_map in Ha, Hb.
  destruct (nth_error L i) as [a|] eqn:Ea; [|discriminate].
  destruct (nth_error L (S i)) as [b|] eqn:Eb; [|discriminate].
  simpl in Ha, Hb. inversion Ha; inversion Hb; subst ka kb.
  assert (Hra : a < length data).
  { apply nth_error_In in Ea. eapply Permutation_in in Ea; [|exact HLp].
    apply in_seq in Ea. lia. }
  assert (Hrb : b < length data).
  { apply nth_error_In in Eb. eapply Permutation_in in Eb; [|exact HLp].
    apply in_seq in Eb. lia. }
  exact (proj1 (sorted_indexes_order K ltb ltb_asym ltb_cotrans A key data
                  i (S i) a b (nth a data d) (nth b data d)
                  (Nat.lt_succ_diag_r i) Ea Eb
                  (nth_error_nth' data d Hra) (nth_error_nth' data d Hrb))).
Qed.

Lemma sorted_sampler_sorted_view_witness :
  ss_iter (make_SortedSampler Nat.ltb
             (map (fun i => nth i [2; 0; 2; 1] 0)
                (ss_iter (make_SortedSampler Nat.ltb [2; 0; 2; 1] identity)))
             identity) =
  seq 0 (length [2; 0; 2; 1]).
Proof.
  apply (sorted_sampler_sorted_view Nat.ltb nat_ltb_asym nat_ltb_cotrans).
Defined.

(** ** [collate_nli] *)

Lemma forallb_false_exists {X : Type} (f : X -> bool) (l : list X) :
  forallb f l = false -> exists x, In x l /\ f x = false.
Proof.
  induction l as [|x l IH]; simpl; [discriminate|]. intro H.
  destruct (f x) eqn:E; simpl in H.
  - destruct (IH H) as (y & Hy & Hf). exists y. split; [right|]; assumption.
  - exists x. split; [left; reflexivity|exact E].
Qed.

(** [torch.tensor] accepts the rows exactly when they all have one
    length. *)
Lemma torch_tensor_2d_spec (rows : list (list Z)) :
  (torch_tensor_2d rows = PyOk rows /\
   forall r1 r2, In r1 rows -> In r2 rows -> length r1 = length r2) \/
  (torch_tensor_2d rows = PyErr PyValueError /\
   exists r1 r2, In r1 rows /\ In r2 rows /\ length r1 <> length r2).
Proof.
  destruct rows as [|r rs]; simpl.
  - left. split; [reflexivity|]. intros r1 r2 [].
  - destruct (forallb (fun r' => length r' =? length r) rs) eqn:E.
    + left. split; [reflexivity|].
      rewrite forallb_forall in E.
      assert (Hall : forall x, In x (r :: rs) -> length x = length r).
      { intros x [<-|Hx]; [reflexivity|]. apply Nat.eqb_eq, E, Hx. }
      intros r1 r2 H1 H2. rewrite (Hall r1 H1), (Hall r2 H2). reflexivity.
    + right. split; [reflexivity|].
      destruct (forallb_false_exists _ _ E) as (x & Hx & Hne).
      apply Nat.eqb_neq in Hne.
      exists x, r. repeat split; [right; exact Hx|left; reflexivity|exact Hne].
Qed.

Lemma torch_tensor_2d_ok (rows v : list (list Z)) :
  torch_tensor_2d rows = PyOk v -> v = rows.
Proof.
  destruct (torch_tensor_2d_spec rows) as [[-> _]|[-> _]]; congruence.
Qed.

Lemma pad_row_length (pad : Z) (M : nat) (s : list Z) :
  length (s ++ repeat pad (M - length s)) = Nat.max M (length s).
Proof. rewrite length_app, repeat_length. lia. Qed.

Lemma list_max_In (l : list nat) : l <> [] -> In (list_max l) l.
Proof.
  induction l as [|x l IH]; intro H; [congruence|].
  change (list_max (x :: l)) with (Nat.max x (list_max l)).
  destruct l as [|y l].
  - left. simpl. lia.
  - destruct (Nat.max_spec x (list_max (y :: l))) as [[_ ->]|[_ ->]].
    + right. apply IH. discriminate.
    + left. reflexivity.
Qed.

Lemma Forall2_map_self {X Y : Type} (R : X -> Y -> Prop) (f : X -> Y)
  (l : list X) :
  (forall x, R x (f x)) -> Forall2 R l (map f l).
Proof. intro H. induction l; simpl; constructor; auto. Qed.




(** X8: a successful [collate_nli] returns the padded ids, then the
    attention mask when [return_attention_masks], then the labels; each
    padded row is the instance's token ids followed by some number of
    [pad_token_id]s, and when [pad_token_id <= 0] (BERT's is [0]) the mask
    of that row is [id > 0] over the instance's own ids followed by [False]
    over the padding. *)
Theorem collate_nli_rows (encode : pystr -> pystr -> list Z) (pad : Z)
  (instances : list NLIItem) (masks p : bool) (out : list tensor) :
  collate_nli encode pad instances masks p = PyOk out ->
  exists rows,
    out = [LongMatrix rows] ++
          (if masks then [BoolMatrix (map (map (fun t => (0 <? t)%Z)) rows)]
           else []) ++
          [LongVector (map label instances)] /\
    Forall2 (fun s row => exists k, row = s ++ repeat pad k /\
               ((pad <= 0)%Z ->
                map (fun t => (0 <? t)%Z) row =
                map (fun t => (0 <? t)%Z) s ++ repeat false k))
      (token_ids encode instances) rows.
Proof.
  intro H. set (ids := token_ids encode instances) in *.
  assert (HM : exists M, collate_nli encode pad instances masks p =
            py_bind (torch_tensor_2d
                       (map (fun s => s ++ repeat pad (M - length s)) ids))
              (fun q =>
                 PyOk ([LongMatrix q] ++
                       (if masks
                        then [BoolMatrix (map (map (fun t => (0 <? t)%Z)) q)]
                        else []) ++
                       [LongVector (map label instances)]))).
  { destruct p; [exists 512; reflexivity|].
    destruct instances as [|x0 xs]; [discriminate H|].
    exists (list_max (map (@length Z) ids)). reflexivity. }
  destruct HM as [M HM]. rewrite HM in H.
  destruct (torch_tensor_2d (map (fun s => s ++ repeat pad (M - length s)) ids))
    as [q|e] eqn:Et; [|discriminate H].
  apply torch_tensor_2d_ok in Et. subst q. cbn [py_bind] in H.
  injection H as <-.
  eexists. split; [reflexivity|].
  apply Forall2_map_self. intro s. exists (M - length s). split; [reflexivity|].
  intro Hpad. rewrite map_app, map_repeat.
  replace (0 <? pad)%Z with false by (symmetry; apply Z.ltb_ge; lia).
  reflexivity.
Qed.

Lemma collate_nli_rows_witness :
  exists rows,
    [LongMatrix [[101; 97; 98; 102; 99; 102]; [101; 97; 102; 98; 102; 0]]%Z;
     BoolMatrix [[true; true; true; true; true; true];
                 [true; true; true; true; true; false]];
     LongVector [1; 0]%Z] =
    [LongMatrix rows] ++
    (if true then [BoolMatrix (map (map (fun t => (0 <? t)%Z)) rows)] else []) ++
    [LongVector (map label [nli_item_of "ab" "c" 1; nli_item_of "a" "b" 0])] /\
    Forall2 (fun s row => exists k, row = s ++ repeat 0%Z k /\
               ((0 <= 0)%Z ->
                map (fun t => (0 <? t)%Z) row =
                map (fun t => (0 <? t)%Z) s ++ repeat false k))
      (token_ids toy_encode [nli_item_of "ab" "c" 1; nli_item_of "a" "b" 0]) rows.
Proof.
  apply (collate_nli_rows toy_encode 0
           [nli_item_of "ab" "c" 1; nli_item_of "a" "b" 0] true false).
  vm_compute. reflexivity.
Defined.

(** ** [NLIDataset] *)

Lemma pystr_eqb_eq (a b : pystr) : pystr_eqb a b = true <-> a = b.
Proof.
  unfold pystr_eqb. destruct (list_eq_dec Nat.eq_dec a b); split; congruence.
Qed.

Lemma find_key_none {V : Type} (d : list (pystr * V)) (k : pystr) :
  ~ In k (map fst d) -> find (fun kv => pystr_eqb (fst kv) k) d = None.
Proof.
  induction d as [|[k' v] d IH]; intro Hk; [reflexivity|]. simpl.
  destruct (pystr_eqb k' k) eqn:E.
  - apply pystr_eqb_eq in E. subst. exfalso. apply Hk. left. reflexivity.
  - apply IH. intro H. apply Hk. right. exact H.
Qed.

Lemma dict_get_missing {V : Type} (d : list (pystr * V)) (k : pystr) :
  ~ In k (map fst d) -> dict_get d k = PyErr PyKeyError.
Proof. intro Hk. unfold dict_get. now rewrite find_key_none. Qed.

Lemma dict_get_present {V : Type} (d : list (pystr * V)) (k : pystr) :
  In k (map fst d) -> exists v, dict_get d k = PyOk v.
Proof.
  unfold dict_get. induction d as [|[k' v] d IH]; intro Hk; [contradiction|].
  simpl. destruct (pystr_eqb k' k) eqn:E; [exists v; reflexivity|].
  apply IH. destruct Hk as [Hk|Hk]; [|exact Hk].
  simpl in Hk. subst. exfalso.
  assert (pystr_eqb k k = true) by (apply pystr_eqb_eq; reflexivity). congruence.
Qed.

(** The three labels and their codes. *)
Lemma dict_get_labels (k : pystr) (c : Z) :
  dict_get NLI_DIC_LABELS k = PyOk c ->
  (k = str_lit "entailment" /\ c = 2%Z) \/
  (k = str_lit "neutral" /\ c = 1%Z) \/
  (k = str_lit "contradiction" /\ c = 0%Z).
Proof.
  unfold dict_get, NLI_DIC_LABELS. cbn [find fst].
  destruct (pystr_eqb (str_lit "entailment") k) eqn:E1;
    [apply pystr_eqb_eq in E1; intro H; injection H as <-; left; auto|].
  destruct (pystr_eqb (str_lit "neutral") k) eqn:E2;
    [apply pystr_eqb_eq in E2; intro H; injection H as <-; right; left; auto|].
  destruct (pystr_eqb (str_lit "contradiction") k) eqn:E3;
    [apply pystr_eqb_eq in E3; intro H; injection H as <-; right; right; auto|].
  discriminate.
Qed.

(** [l[n]] for a literal [n >= 0]. *)
Lemma py_index_const {X : Type} (l : list X) (n : nat) :
  py_index l (Z.of_nat n) =
  match nth_error l n with Some x => PyOk x | None => PyErr PyIndexError end.
Proof.
  unfold py_index.
  destruct (Z.of_nat n <? - Z.of_nat (length l))%Z eqn:E1;
    [apply Z.ltb_lt in E1; lia|].
  destruct (Z.of_nat (length l) <=? Z.of_nat n)%Z eqn:E2; simpl.
  - apply Z.leb_le in E2.
    rewrite (proj2 (nth_error_None l n)) by lia. reflexivity.
  - replace (Z.of_nat n <? 0)%Z with false by (symmetry; apply Z.ltb_ge; lia).
    now rewrite Nat2Z.id.
Qed.

Lemma py_index_lit {X : Type} (l : list X) (i : Z) :
  (0 <= i)%Z ->
  py_index l i =
  match nth_error l (Z.to_nat i) with Some x => PyOk x | None => PyErr PyIndexError end.
Proof. intro Hi. rewrite <- (Z2Nat.id i) at 1 by exact Hi. apply py_index_const. Qed.

(** Turns the [Z.to_nat 2] of an index literal into [2]. *)
Ltac lit_indices :=
  repeat match goal with
  | H : context [Z.to_nat (Zpos ?p)] |- _ =>
      let n := eval vm_compute in (Z.to_nat (Zpos p)) in
      change (Z.to_nat (Zpos p)) with n in H
  | |- context [Z.to_nat (Zpos ?p)] =>
      let n := eval vm_compute in (Z.to_nat (Zpos p)) in
      change (Z.to_nat (Zpos p)) with n
  end.

Lemma py_index_out {X : Type} (l : list X) (i : Z) :
  (i < - Z.of_nat (length l) \/ Z.of_nat (length l) <= i)%Z ->
  py_index l i = PyErr PyIndexError.
Proof.
  intro H. unfold py_index.
  destruct H as [H|H];
    [apply Z.ltb_lt in H; rewrite H | apply Z.leb_le in H; rewrite H, orb_true_r];
    reflexivity.
Qed.

(** [l[-k]] is [l[len(l) - k]]. *)
Lemma py_index_neg {X : Type} (l : list X) (k : nat) :
  0 < k <= length l ->
  py_index l (- Z.of_nat k) = py_index l (Z.of_nat (length l - k)).
Proof.
  intro Hk. rewrite py_index_const. unfold py_index.
  replace (- Z.of_nat k <? - Z.of_nat (length l))%Z with false
    by (symmetry; apply Z.ltb_ge; lia).
  replace (Z.of_nat (length l) <=? - Z.of_nat k)%Z with false
    by (symmetry; apply Z.leb_gt; lia).
  replace (- Z.of_nat k <? 0)%Z with true by (symmetry; apply Z.ltb_lt; lia).
  simpl. replace (Z.to_nat (Z.of_nat (length l) + - Z.of_nat k))
    with (length l - k) by lia.
  reflexivity.
Qed.

(** X9: a successful [dataset[item]] reads one CSV row: fields 2 and 3
    are the premise and hypothesis, field 1 is one of [entailment],
    [neutral], [contradiction], coded [2], [1], [0]; with
    [salient_features] the row has at least 9 fields and fields 5 to 8
    follow, otherwise it has at least 4 and nothing follows. *)
Theorem nli_getitem_ok (d : NLIDataset) (item : Z) (x : NLIItem) :
  nli_getitem d item = PyOk x ->
  exists row, py_index (nli_dataset d) item = PyOk row /\
    nth_error row 2 = Some (premise x) /\
    nth_error row 3 = Some (hypothesis x) /\
    ((nth_error row 1 = Some (str_lit "entailment") /\ label x = 2%Z) \/
     (nth_error row 1 = Some (str_lit "neutral") /\ label x = 1%Z) \/
     (nth_error row 1 = Some (str_lit "contradiction") /\ label x = 0%Z)) /\
    salient x = (if nli_salient_features d then firstn 4 (skipn 5 row) else []) /\
    (if nli_salient_features d then 9 else 4) <= length row.
Proof.
  intro H. unfold nli_getitem in H.
  destruct (py_index (nli_dataset d) item) as [row|e]; cbn [py_bind] in H;
    [|discriminate].
  exists row. split; [reflexivity|].
  rewrite !(py_index_lit row) in H by lia. lit_indices.
  destruct row as [|a0 [|a1 [|a2 [|a3 row]]]]; cbn [nth_error py_bind] in H;
    try discriminate.
  destruct (dict_get NLI_DIC_LABELS a1) as [c|e] eqn:Ed; cbn [py_bind] in H;
    [|discriminate].
  apply dict_get_labels in Ed.
  destruct (nli_salient_features d).
  - destruct row as [|a4 [|a5 [|a6 [|a7 [|a8 row]]]]]; cbn [nth_error py_bind] in H;
      try discriminate.
    injection H as <-. cbn. repeat split; [|lia].
    destruct Ed as [[-> ->]|[[-> ->]|[-> ->]]]; auto.
  - injection H as <-. cbn. repeat split; [|lia].
    destruct Ed as [[-> ->]|[[-> ->]|[-> ->]]]; auto.
Qed.

Lemma nli_getitem_ok_witness :
  exists row,
    py_index (nli_dataset (mkNLIDataset
                [[str_lit "7"; str_lit "neutral"; str_lit "A man sleeps.";
                  str_lit "A person rests."]] false)) 0%Z = PyOk row /\
    nth_error row 2 = Some (str_lit "A man sleeps.") /\
    nth_error row 3 = Some (str_lit "A person rests.") /\
    ((nth_error row 1 = Some (str_lit "entailment") /\ (1 = 2)%Z) \/
     (nth_error row 1 = Some (str_lit "neutral") /\ (1 = 1)%Z) \/
     (nth_error row 1 = Some (str_lit "contradiction") /\ (1 = 0)%Z)) /\
    [] = (if false then firstn 4 (skipn 5 row) else []) /\
    (if false then 9 else 4) <= length row.
Proof.
  apply (nli_getitem_ok
           (mkNLIDataset
              [[str_lit "7"; str_lit "neutral"; str_lit "A man sleeps.";
                str_lit "A person rests."]] false) 0
           (mkNLIItem (str_lit "A man sleeps.") (str_lit "A person rests.") 1 [])).
  vm_compute. reflexivity.
Defined.

(** X10: [dataset[item]] raises [IndexError] for an index outside
    [-len .. len-1], reads [dataset[-k]] as [dataset[len-k]], raises
    [IndexError] for a row with fewer than 4 fields, [KeyError] for a row
    whose field 1 is not a known label, and, with [salient_features],
    [IndexError] for a row with a known label but fewer than 9 fields. *)
Theorem nli_getitem_errors (d : NLIDataset) (item : Z) :
  ((item < - Z.of_nat (nli_len d) \/ Z.of_nat (nli_len d) <= item)%Z ->
   nli_getitem d item = PyErr PyIndexError) /\
  (forall k, 0 < k <= nli_len d ->
   nli_getitem d (- Z.of_nat k) = nli_getitem d (Z.of_nat (nli_len d - k))) /\
  (forall row, py_index (nli_dataset d) item = PyOk row ->
   (length row < 4 -> nli_getitem d item = PyErr PyIndexError) /\
   (4 <= length row -> ~ In (nth 1 row []) (map fst NLI_DIC_LABELS) ->
    nli_getitem d item = PyErr PyKeyError) /\
   (nli_salient_features d = true -> 4 <= length row < 9 ->
    In (nth 1 row []) (map fst NLI_DIC_LABELS) ->
    nli_getitem d item = PyErr PyIndexError)).
Proof.
  split; [|split].
  - intro H. unfold nli_getitem. rewrite py_index_out by exact H. reflexivity.
  - intros k Hk. unfold nli_getitem. rewrite py_index_neg by exact Hk.
    reflexivity.
  - intros row Hrow. unfold nli_getitem. rewrite Hrow. cbn [py_bind].
    rewrite !(py_index_lit row) by lia. lit_indices.
    split; [|split].
    + intro Hl. destruct row as [|a0 [|a1 [|a2 [|a3 row]]]]; simpl in Hl;
        try lia; reflexivity.
    + intros Hl Hk. destruct row as [|a0 [|a1 [|a2 [|a3 row]]]]; simpl in Hl;
        try lia.
      cbn [nth_error nth py_bind] in *. rewrite dict_get_missing by exact Hk.
      reflexivity.
    + intros Hs Hl Hk. destruct row as [|a0 [|a1 [|a2 [|a3 row]]]]; simpl in Hl;
        try lia.
      cbn [nth_error nth py_bind] in *.
      destruct (dict_get_present NLI_DIC_LABELS a1 Hk) as [c ->].
      cbn [py_bind]. rewrite Hs.
      destruct row as [|a4 [|a5 [|a6 [|a7 [|a8 row]]]]]; simpl in Hl; try lia;
        reflexivity.
Qed.

Lemma nli_load_ok (fs : pystr -> py_result (list (list pystr)))
  (acc : list (list pystr)) (paths : list pystr) (files : list (list (list pystr))) :
  map fs paths = map PyOk files ->
  nli_load fs acc paths = PyOk (acc ++ concat (map (skipn 1) files)).
Proof.
  revert acc files. induction paths as [|p ps IH]; intros acc files H.
  - destruct files; [|discriminate]. simpl. now rewrite app_nil_r.
  - destruct files as [|f fs']; [discriminate|]. simpl in H.
    injection H as Hp Hps. simpl. rewrite Hp, (IH _ _ Hps), app_assoc.
    reflexivity.
Qed.

(** The first file that fails decides the exception. *)
Lemma nli_load_fail (fs : pystr -> py_result (list (list pystr)))
  (acc : list (list pystr)) (pre post : list pystr) (p : pystr) (e : py_exn) :
  Forall (fun q => exists rows, fs q = PyOk rows) pre -> fs p = PyErr e ->
  nli_load fs acc (pre ++ p :: post) = PyErr e.
Proof.
  intros Hpre Hp. revert acc.
  induction Hpre as [|q qs [rows Hq] _ IH]; intro acc.
  - simpl. rewrite Hp. reflexivity.
  - simpl. rewrite Hq. apply IH.
Qed.

(** X11: when every file of [type] opens and reads without error,
    [NLIDataset(dir, type, ...)]
    holds the rows of the files, in the order of [_PATHS], each file
    without its first (header) row; its length is the sum of the files'
    lengths minus one each. *)
Theorem nli_dataset_load (fs : pystr -> py_result (list (list pystr)))
  (dir type : pystr) (sample_dev salient_features : bool)
  (names : list pystr) (files : list (list (list pystr))) :
  dict_get NLI_PATHS type = PyOk names ->
  map (fun n => fs (os_path_join dir n)) names = map PyOk files ->
  make_NLIDataset fs dir type sample_dev salient_features =
    PyOk (mkNLIDataset (concat (map (skipn 1) files)) salient_features) /\
  nli_len (mkNLIDataset (concat (map (skipn 1) files)) salient_features) =
    list_sum (map (fun f => length f - 1) files).
Proof.
  intros Hn Hf. split.
  - unfold make_NLIDataset. rewrite Hn. cbn [py_bind].
    rewrite (nli_load_ok fs [] _ files); [reflexivity|].
    rewrite map_map. exact Hf.
  - unfold nli_len. cbn [nli_dataset]. rewrite length_concat, map_map.
    f_equal. apply map_ext. intro f. apply length_skipn.
Qed.

Definition dev_fs (p : pystr) : py_result (list (list pystr)) :=
  if pystr_eqb p (str_lit "data/esnli_dev.csv") then
    PyOk [[str_lit "pairID"; str_lit "gold_label"; str_lit "Sentence1";
           str_lit "Sentence2"];
          [str_lit "1"; str_lit "entailment"; str_lit "A dog runs.";
           str_lit "An animal moves."];
          [str_lit "2"; str_lit "contradiction"; str_lit "A dog runs.";
           str_lit "A cat sleeps."]]
  else PyErr PyFileNotFoundError.

Lemma nli_dataset_load_witness :
  dict_get NLI_PATHS (str_lit "dev") = PyOk [str_lit "esnli_dev.csv"] /\
  make_NLIDataset dev_fs (str_lit "data") (str_lit "dev") false false =
    PyOk (mkNLIDataset
            (concat (map (skipn 1)
               [[[str_lit "pairID"; str_lit "gold_label"; str_lit "Sentence1";
                  str_lit "Sentence2"];
                 [str_lit "1"; str_lit "entailment"; str_lit "A dog runs.";
                  str_lit "An animal moves."];
                 [str_lit "2"; str_lit "contradiction"; str_lit "A dog runs.";
                  str_lit "A cat sleeps."]]])) false).
Proof.
  split; [vm_compute; reflexivity|].
  apply (nli_dataset_load dev_fs (str_lit "data") (str_lit "dev") false false
           [str_lit "esnli_dev.csv"]); vm_compute; reflexivity.
Defined.

(** X12: [NLIDataset(dir, type, ...)] raises [KeyError] for a [type]
    other than [train], [dev] and [test]; otherwise it raises the exception
    of the first file of [type], in [_PATHS] order, that fails to open or
    to be read, whatever that exception is. *)
Theorem nli_dataset_load_errors (fs : pystr -> py_result (list (list pystr)))
  (dir type : pystr) (sample_dev salient_features : bool) :
  (~ In type (map fst NLI_PATHS) ->
   make_NLIDataset fs dir type sample_dev salient_features = PyErr PyKeyError) /\
  (forall names pre n post e,
   dict_get NLI_PATHS type = PyOk names -> names = pre ++ n :: post ->
   Forall (fun p => exists rows, fs (os_path_join dir p) = PyOk rows) pre ->
   fs (os_path_join dir n) = PyErr e ->
   make_NLIDataset fs dir type sample_dev salient_features = PyErr e).
Proof.
  split.
  - intro H. unfold make_NLIDataset. rewrite dict_get_missing by exact H.
    reflexivity.
  - intros names pre n post e Hn -> Hpre Hf. unfold make_NLIDataset.
    rewrite Hn. cbn [py_bind].
    rewrite map_app. cbn [map].
    rewrite (nli_load_fail fs [] _ _ (os_path_join dir n) e); [reflexivity| |exact Hf].
    apply Forall_map. exact Hpre.
Qed.

(** Files where [esnli_train_2.csv] cannot be opened for lack of
    permission. *)
Definition train_fs (p : pystr) : py_result (list (list pystr)) :=
  if pystr_eqb p (str_lit "data/esnli_train_1.csv") then
    PyOk [[str_lit "pairID"; str_lit "gold_label"; str_lit "Sentence1";
           str_lit "Sentence2"]]
  else if pystr_eqb p (str_lit "data/esnli_train_2.csv") then
    PyErr PyPermissionError
  else PyErr PyFileNotFoundError.

Lemma nli_dataset_load_errors_witness :
  make_NLIDataset train_fs (str_lit "data") (str_lit "train") false false =
    PyErr PyPermissionError.
Proof.
  apply (proj2 (nli_dataset_load_errors train_fs (str_lit "data")
                  (str_lit "train") false false)
           [str_lit "esnli_train_1.csv"; str_lit "esnli_train_2.csv"]
           [str_lit "esnli_train_1.csv"] (str_lit "esnli_train_2.csv") []).
  - vm_compute. reflexivity.
  - reflexivity.
  - constructor; [|constructor]. eexists. vm_compute. reflexivity.
  - vm_compute. reflexivity.
Defined.

(** ** The loader of [train_cnn.py] *)

(** X13: the training loader of [train_cnn.py] ([batch_size=256],
    [drop_last=False], [shuffle=True], [bucket_size_multiplier=100],
    [sort_key = len(premise) + len(hypothesis)]) is built for every
    non-empty dataset; its buckets hold [min(25600, N)] items, and one
    iteration emits [ceil(N/256)] batches of 1 to 256 indices that together
    are a permutation of [0 .. N-1], each batch in non-decreasing order of
    [sort_key]. *)
Theorem train_loader_batches {S : Type} (randperm : S -> nat -> list nat * S)
  (Hperm : forall r n, Permutation (fst (randperm r n)) (seq 0 n))
  (ds : Dataset NLIItem) (r : S) :
  0 < ds_len ds ->
  exists s, train_loader ds = Ok s /\
    bb_bucket_size s = Nat.min (256 * 100) (ds_len ds) /\
    length (fst (bb_iter Nat.ltb randperm s r)) = ceil_div (ds_len ds) 256 /\
    Forall (fun b => 0 < length b <= 256) (fst (bb_iter Nat.ltb randperm s r)) /\
    Permutation (concat (fst (bb_iter Nat.ltb randperm s r)))
      (seq 0 (ds_len ds)) /\
    (forall batch i j a b, In batch (fst (bb_iter Nat.ltb randperm s r)) ->
     i < j -> nth_error batch i = Some a -> nth_error batch j = Some b ->
     train_sort_key (ds_get ds a) <= train_sort_key (ds_get ds b)).
Proof.
  intro HN.
  assert (Hmk : train_loader ds =
    Ok (mkBBS ds 256 false true train_sort_key
          (Z.to_nat (if (Z.of_nat (ds_len ds) <? 256 * 100)%Z
                     then Z.of_nat (ds_len ds) else (256 * 100)%Z)))).
  { unfold train_loader. rewrite make_BucketBatchSampler_int.
    replace (0 <? Z.of_nat (ds_len ds))%Z with true
      by (symmetry; apply Z.ltb_lt; lia).
    reflexivity. }
  eexists. split; [exact Hmk|].
  destruct (make_iter_perm Nat.ltb randperm Hperm ds 256 (PyInt 100) false true
              train_sort_key _ r Hmk) as (_ & _ & Q & HQ & Hout).
  change (Z.to_nat 256) with 256 in Hout.
  destruct (batch_sampler_facts 256 ltac:(lia) false Q)
    as (Hsz & _ & _ & Hlen & Hcat & _).
  split; [|split; [|split; [|split]]].
  - cbn [bb_bucket_size].
    destruct (Z.of_nat (ds_len ds) <? 256 * 100)%Z eqn:E;
      [apply Z.ltb_lt in E | apply Z.ltb_ge in E]; lia.
  - rewrite (Permutation_length Hout), Hlen, (Permutation_length HQ), length_seq.
    reflexivity.
  - apply Forall_forall. intros x Hx.
    rewrite Forall_forall in Hsz. apply Hsz.
    exact (Permutation_in _ Hout Hx).
  - rewrite (Permutation_concat_lists _ _ Hout), Hcat by reflexivity. exact HQ.
  - intros batch i j a b Hin Hij Ha Hb.
    pose proof (bb_iter_batch_sorted Nat.ltb nat_ltb_asym nat_ltb_cotrans randperm
                  _ r batch i j a b Hin Hij Ha Hb) as H.
    cbn [bb_sort_key bb_dataset] in H. apply Nat.ltb_ge in H. exact H.
Qed.

(** Three premise/hypothesis pairs of lengths 4, 2 and 3. *)
Definition toy_nli_dataset : Dataset NLIItem :=
  mkDataset 3 (fun i => nth i [nli_item_of "ab" "cd" 2; nli_item_of "a" "b" 1;
                               nli_item_of "abc" "" 0]
                          (nli_item_of "" "" 0)).

Lemma train_loader_batches_witness :
  0 < ds_len toy_nli_dataset /\
  exists s, train_loader toy_nli_dataset = Ok s /\
    bb_bucket_size s = Nat.min (256 * 100) (ds_len toy_nli_dataset) /\
    length (fst (bb_iter Nat.ltb rot_randperm s 5)) =
      ceil_div (ds_len toy_nli_dataset) 256 /\
    Forall (fun b => 0 < length b <= 256) (fst (bb_iter Nat.ltb rot_randperm s 5)) /\
    Permutation (concat (fst (bb_iter Nat.ltb rot_randperm s 5)))
      (seq 0 (ds_len toy_nli_dataset)) /\
    (forall batch i j a b, In batch (fst (bb_iter Nat.ltb rot_randperm s 5)) ->
     i < j -> nth_error batch i = Some a -> nth_error batch j = Some b ->
     train_sort_key (ds_get toy_nli_dataset a) <=
       train_sort_key (ds_get toy_nli_dataset b)).
Proof.
  split; [vm_compute; lia|].
  apply (train_loader_batches rot_randperm rot_randperm_perm toy_nli_dataset 5).
  vm_compute. lia.
Defined.

(** The label of an item read from an [NLIDataset] is a class index of
    the 3-label model. *)
Lemma nli_getitem_label (d : NLIDataset) (item : Z) (x : NLIItem) :
  nli_getitem d item = PyOk x -> (0 <= label x < 3)%Z.
Proof.
  intro H. unfold nli_getitem in H.
  destruct (py_index (nli_dataset d) item) as [row|]; cbn [py_bind] in H;
    [|discriminate].
  destruct (py_index row 2); cbn [py_bind] in H; [|discriminate].
  destruct (py_index row 3); cbn [py_bind] in H; [|discriminate].
  destruct (py_index row 1) as [x1|]; cbn [py_bind] in H; [|discriminate].
  destruct (dict_get NLI_DIC_LABELS x1) as [c|] eqn:Ed; cbn [py_bind] in H;
    [|discriminate].
  assert (Hc : (0 <= c < 3)%Z)
    by (apply dict_get_labels in Ed; destruct Ed as [[_ ->]|[[_ ->]|[_ ->]]]; lia).
  destruct (nli_salient_features d).
  - destruct (py_index row 5); cbn [py_bind] in H; [|discriminate].
    destruct (py_index row 6); cbn [py_bind] in H; [|discriminate].
    destruct (py_index row 7); cbn [py_bind] in H; [|discriminate].
    destruct (py_index row 8); cbn [py_bind] in H; [|discriminate].
    injection H as <-. exact Hc.
  - injection H as <-. exact Hc.
Qed.

(** [collate_nli] with [pad_to_max_length=False] on a non-empty batch. *)
Lemma collate_nli_dynamic_ok (encode : pystr -> pystr -> list Z) (pad : Z)
  (instances : list NLIItem) (masks : bool) :
  instances <> [] ->
  exists M,
    collate_nli encode pad instances masks false =
      PyOk ([LongMatrix (map (fun s => s ++ repeat pad (M - length s))
                           (token_ids encode instances))] ++
            (if masks
             then [BoolMatrix (map (map (fun t => (0 <? t)%Z))
                                 (map (fun s => s ++ repeat pad (M - length s))
                                    (token_ids encode instances)))]
             else []) ++
            [LongVector (map label instances)]) /\
    Forall (fun row => length row = M)
      (map (fun s => s ++ repeat pad (M - length s)) (token_ids encode instances)).
Proof.
  intro Hne.
  set (ids := token_ids encode instances).
  set (M := list_max (map (@length Z) ids)).
  assert (Hmax : py_max (map (@length Z) ids) = PyOk M)
    by (unfold ids, M, token_ids; destruct instances; [congruence|reflexivity]).
  assert (Hle : Forall (fun s => length s <= M) ids).
  { apply Forall_map with (f := @length Z) (P := fun k => k <= M).
    apply list_max_le. unfold M. lia. }
  set (rows := map (fun s => s ++ repeat pad (M - length s)) ids).
  assert (Hrows : Forall (fun row => length row = M) rows).
  { unfold rows. apply Forall_map. eapply Forall_impl; [|exact Hle].
    intros s Hs. cbv beta in *. rewrite pad_row_length. lia. }
  assert (Ht : torch_tensor_2d rows = PyOk rows).
  { destruct (torch_tensor_2d_spec rows) as [[H _]|[_ (r1 & r2 & H1 & H2 & Hd)]];
      [exact H|].
    rewrite Forall_forall in Hrows. rewrite (Hrows r1 H1), (Hrows r2 H2) in Hd.
    congruence. }
  exists M. split; [|exact Hrows].
  unfold collate_nli. cbv zeta. fold (token_ids encode instances). fold ids.
  rewrite Hmax. cbn [py_bind]. fold rows. rewrite Ht. reflexivity.
Qed.

(** X14: with the [collate_fn] of [train_cnn.py]
    ([return_attention_masks=False], [pad_to_max_length=False]), a
    non-empty batch of items read from an [NLIDataset] collates to exactly
    two tensors, the ones [train_model] reads as [batch[0]] and [batch[1]]:
    the padded ids, one row per item and all rows of one length, and the
    labels of the items, each in [0 .. 2]. *)
Theorem train_collate_batch (encode : pystr -> pystr -> list Z) (pad : Z)
  (d : NLIDataset) (idxs : list Z) (items : list NLIItem) :
  Forall2 (fun i x => nli_getitem d i = PyOk x) idxs items ->
  items <> [] ->
  exists ids M,
    collate_nli encode pad items false false =
      PyOk [LongMatrix ids; LongVector (map label items)] /\
    length ids = length items /\
    Forall (fun row => length row = M) ids /\
    Forall (fun l => (0 <= l < 3)%Z) (map label items).
Proof.
  intros Hget Hne.
  destruct (collate_nli_dynamic_ok encode pad items false Hne) as (M & Hc & Hrows).
  eexists _, M. split; [exact Hc|]. split; [|split; [exact Hrows|]].
  - unfold token_ids. rewrite !length_map. reflexivity.
  - apply Forall_map. clear Hne Hc Hrows.
    induction Hget as [|i x idxs' items' Hx _ IH]; constructor;
      [exact (nli_getitem_label d i x Hx)|exact IH].
Qed.

Definition toy_nli_rows : list (list pystr) :=
  [[str_lit "1"; str_lit "entailment"; str_lit "A dog runs.";
    str_lit "An animal moves."];
   [str_lit "2"; str_lit "contradiction"; str_lit "A dog runs.";
    str_lit "A cat sleeps."]].

Lemma train_collate_batch_witness :
  Forall2 (fun i x => nli_getitem (mkNLIDataset toy_nli_rows false) i = PyOk x)
    [1%Z; (-2)%Z]
    [mkNLIItem (str_lit "A dog runs.") (str_lit "A cat sleeps.") 0 [];
     mkNLIItem (str_lit "A dog runs.") (str_lit "An animal moves.") 2 []] /\
  exists ids M,
    collate_nli toy_encode 0
      [mkNLIItem (str_lit "A dog runs.") (str_lit "A cat sleeps.") 0 [];
       mkNLIItem (str_lit "A dog runs.") (str_lit "An animal moves.") 2 []]
      false false =
      PyOk [LongMatrix ids; LongVector [0%Z; 2%Z]] /\
    length ids = 2 /\
    Forall (fun row => length row = M) ids /\
    Forall (fun l => (0 <= l < 3)%Z) [0%Z; 2%Z].
Proof.
  assert (H : Forall2 (fun i x => nli_getitem (mkNLIDataset toy_nli_rows false) i = PyOk x)
    [1%Z; (-2)%Z]
    [mkNLIItem (str_lit "A dog runs.") (str_lit "A cat sleeps.") 0 [];
     mkNLIItem (str_lit "A dog runs.") (str_lit "An animal moves.") 2 []]).
  { constructor; [vm_compute; reflexivity|].
    constructor; [vm_compute; reflexivity|constructor]. }
  split; [exact H|].
  exact (train_collate_batch toy_encode 0 _ _ _ H ltac:(discriminate)).
Defined.
